(** * Authorization core of the drinks API

    A shallow embedding of [backend/src/auth/auth.py] and of the parts of
    [backend/src/api.py] that consume it (the error boundary and the
    PATCH endpoint), followed by the properties established about them.

    Python values are modelled as follows.
    - [str] is [string]; header values reach the program decoded as
      Latin-1, one character per byte, which is exactly what [ascii] holds.
    - a [dict] read by key is a [gmap]; a missing key read with [d[k]]
      raises [KeyError], read with [k in d] gives [False].
    - JSON documents ([request.get_json()], decoded claims) are [json].
    - an exception is a value of [exn]; a call either returns or raises
      ([result]).
    - calls that leave the process (the JWKS download, the [jose] library,
      the wrapped view function) are recorded in a trace ([run]). *)

From Stdlib Require Import ZArith String Ascii List Lia DecimalString.
From stdpp Require Import base option list gmap strings.

Set Warnings "-register-all".
Local Open Scope string_scope.
Local Open Scope Z_scope.

(** ** Python values *)

Module Py.

(** Exceptions the program raises, catches or lets through. Every
    constructor is a subclass of [Exception]; [ExpiredSignatureError] and
    [JWTClaimsError] are the two subclasses of [JWTError] that
    [verify_decode_jwt] names in its handlers. [HTTPException] is what
    [flask.abort] raises: the status code selects the class and the second
    argument of [abort], when given, becomes its [description];
    [AbortWithResponse] is [abort(Response(status=..., response=...))]. *)
Inductive exn : Type :=
| AuthError (code description : string) (status_code : Z)
| JWTError
| ExpiredSignatureError
| JWTClaimsError
| KeyError (key : string)
| TypeError
| AttributeError
| MultipleResultsFound
| OtherException (name : string)
| HTTPException (code : Z) (description : option exn)
| AbortWithResponse (status : Z) (body : string).

Inductive result (A : Type) : Type :=
| Return (a : A)
| Raise (e : exn).
Arguments Return {A} a.
Arguments Raise {A} e.

#[global] Instance result_ret : MRet result := fun A a => Return a.
#[global] Instance result_bind : MBind result := fun A B k m =>
  match m with
  | Return a => k a
  | Raise e => Raise e
  end.

Inductive json : Type :=
| JNull
| JBool (b : bool)
| JNum (n : Z)
| JStr (s : string)
| JArr (items : list json)
| JObj (members : list (string * json)).

(** [bool(v)] *)
Definition truthy (v : json) : bool :=
  match v with
  | JNull => false
  | JBool b => b
  | JNum n => negb (n =? 0)
  | JStr s => negb (String.eqb s "")
  | JArr items => match items with [] => false | _ => true end
  | JObj members => match members with [] => false | _ => true end
  end.

(** [d[k]] on a mapping *)
Definition getitem {V : Type} (d : gmap string V) (k : string) : result V :=
  match d !! k with
  | Some v => Return v
  | None => Raise (KeyError k)
  end.

(** [k in d] on a mapping *)
Definition contains_key {V : Type} (d : gmap string V) (k : string) : bool :=
  match d !! k with
  | Some _ => true
  | None => false
  end.

(** [s.split(" ")]: cut at every single space; never the empty list. *)
Fixpoint split_space (s : string) : list string :=
  match s with
  | EmptyString => [EmptyString]
  | String c rest =>
      if Ascii.eqb c " "%char then EmptyString :: split_space rest
      else match split_space rest with
           | p :: ps => String c p :: ps
           | [] => [String c EmptyString]
           end
  end.

(** [c.lower()] on a Latin-1 character: A-Z and the accented capitals
    U+00C0-U+00DE (the multiplication sign U+00D7 apart) move up by 32. *)
Definition lower_char (c : ascii) : ascii :=
  let n := N_of_ascii c in
  if ((65 <=? n) && (n <=? 90)
      || (192 <=? n) && (n <=? 222) && negb (n =? 215))%N
  then ascii_of_N (n + 32) else c.

(** [s.lower()] *)
Fixpoint lower (s : string) : string :=
  match s with
  | EmptyString => EmptyString
  | String c rest => String (lower_char c) (lower rest)
  end.

(** [sub in s] on two strings *)
Fixpoint substring_of (sub s : string) : bool :=
  String.prefix sub s ||
  match s with
  | EmptyString => false
  | String _ rest => substring_of sub rest
  end.

(** [x in v] for a string [x]: element test on a list (a [str] equals
    only a [str] of the same characters), substring test on a string, key
    test on a dict; the other JSON values are not iterable. *)
Definition py_in (x : string) (v : json) : result bool :=
  match v with
  | JArr items =>
      Return (existsb (fun y => match y with
                                | JStr s => String.eqb x s
                                | _ => false
                                end) items)
  | JStr s => Return (substring_of x s)
  | JObj members => Return (existsb (fun kv => String.eqb x (fst kv)) members)
  | JNull | JBool _ | JNum _ => Raise TypeError
  end.

(** [v.get(k)]: only a dict has the method; a missing key gives [None].
    The members of a [JObj] are the items of the dict in insertion order. *)
Definition py_get (v : json) (k : string) : result json :=
  match v with
  | JObj members =>
      Return (match find (fun kv => String.eqb (fst kv) k) members with
              | Some kv => snd kv
              | None => JNull
              end)
  | _ => Raise AttributeError
  end.

Definition is_str (v : json) : bool :=
  match v with JStr _ => true | _ => false end.

Definition is_list (v : json) : bool :=
  match v with JArr _ => true | _ => false end.

Definition quote : string := String (ascii_of_N 34) EmptyString.
Definition backslash : string := String (ascii_of_N 92) EmptyString.

Definition hex_digit (n : N) : string :=
  String (ascii_of_N (if (n <? 10)%N then 48 + n else 87 + n)) EmptyString.

(** One character of a string under [json.dumps] with its default
    [ensure_ascii=True]: the quote, the backslash and everything outside
    the printable range U+0020-U+007E are escaped. *)
Definition escape_char (c : ascii) : string :=
  let n := N_of_ascii c in
  if (n =? 34)%N then backslash ++ quote
  else if (n =? 92)%N then backslash ++ backslash
  else if (n =? 8)%N then backslash ++ "b"
  else if (n =? 12)%N then backslash ++ "f"
  else if (n =? 10)%N then backslash ++ "n"
  else if (n =? 13)%N then backslash ++ "r"
  else if (n =? 9)%N then backslash ++ "t"
  else if ((n <? 32) || (126 <? n))%N
       then backslash ++ "u00" ++ hex_digit (n / 16) ++ hex_digit (n mod 16)
  else String c EmptyString.

Fixpoint escape_chars (s : string) : string :=
  match s with
  | EmptyString => EmptyString
  | String c rest => escape_char c ++ escape_chars rest
  end.

Definition dumps_str (s : string) : string := quote ++ escape_chars s ++ quote.

(** [", ".join(parts)] *)
Fixpoint join_comma (parts : list string) : string :=
  match parts with
  | [] => EmptyString
  | [p] => p
  | p :: ps => p ++ ", " ++ join_comma ps
  end.

(** [json.dumps(v)] with the default separators. *)
Fixpoint json_dumps (v : json) : string :=
  match v with
  | JNull => "null"
  | JBool true => "true"
  | JBool false => "false"
  | JNum n => NilZero.string_of_int (Z.to_int n)
  | JStr s => dumps_str s
  | JArr items => "[" ++ join_comma (List.map json_dumps items) ++ "]"
  | JObj members =>
      "{" ++ join_comma (List.map (fun kv => dumps_str (fst kv) ++ ": "
                                              ++ json_dumps (snd kv)) members)
          ++ "}"
  end.

(** Truth value of a [str]: non-empty. *)
Definition str_truthy (s : string) : bool := negb (String.eqb s "").

(** A run of effectful code: the calls it made that leave the process, in
    order, and how it ended. *)
Inductive event : Type :=
| EvReadHeaders
| EvUrlopen (url : string)
| EvGetUnverifiedHeader (token : string)
| EvDecode (token : string) (key : gmap string string)
    (algorithms : list string) (audience issuer : string)
| EvCheckPermissions (permission : string) (payload : gmap string json)
| EvCall (args : list json) (kwargs : list (string * json)).

Record run (A : Type) : Type := Run { trace : list event; outcome : result A }.
Arguments Run {A} trace outcome.
Arguments trace {A} r.
Arguments outcome {A} r.

#[global] Instance run_ret : MRet run := fun A a => Run [] (Return a).
#[global] Instance run_bind : MBind run := fun A B k m =>
  match outcome m with
  | Return a => Run (trace m ++ trace (k a)) (outcome (k a))
  | Raise e => Run (trace m) (Raise e)
  end.

(** A call that is recorded and ends as [r]. *)
Definition call {A : Type} (ev : event) (r : result A) : run A := Run [ev] r.

(** A computation without effects. *)
Definition pure {A : Type} (r : result A) : run A := Run [] r.

(** [try: body except Exception as e: handler(e)] *)
Definition try_except {A : Type} (body : run A) (handler : exn -> run A) : run A :=
  match outcome body with
  | Return a => body
  | Raise e => Run (trace body ++ trace (handler e)) (outcome (handler e))
  end.

End Py.
Import Py.

(** ** auth.py *)

Module Auth.

Definition unauthorized : exn := AuthError "unauthorized" "Unauthorized" 401.
Definition forbidden : exn := AuthError "forbidden" "Forbidden" 403.

(** [get_token_auth_header()], as a function of [request.headers]. *)
Definition get_token_auth_header (headers : gmap string string) : result string :=
  if negb (contains_key headers "Authorization") then Raise unauthorized
  else
    auth_header ← getitem headers "Authorization";
    let pieces := split_space auth_header in
    if negb (length pieces =? 2)%nat then Raise unauthorized
    else if negb (String.eqb (lower (nth 0 pieces "")) "bearer") then Raise unauthorized
    else Return (nth 1 pieces "").

(** [check_permissions(permission, payload)] *)
Definition check_permissions (permission : string) (payload : gmap string json)
  : result bool :=
  if negb (contains_key payload "permissions") then Raise forbidden
  else
    permissions ← getitem payload "permissions";
    found ← py_in permission permissions;
    if negb found then Raise forbidden
    else Return true.

(** What the module reads from outside itself: the three settings taken
    from the process environment, the JWKS document served by the
    authority ([json.loads(urlopen(url).read())], a JSON object whose
    members are lists of key descriptors, or the name of the library
    exception that the download or the parsing raised), and the two
    [jose] entry points, whose cryptography and clock are not part of
    this program.

    [header_of] stands for the decoding of a token's segments once the
    token has three of them; [jwt_decode] for [jwt.decode]. *)
Record environment : Type := {
  AUTH0_DOMAIN : string;
  ALGORITHMS : list string;
  API_AUDIENCE : string;
  urlopen_json : string -> gmap string (list (gmap string string)) + string;
  header_of : string -> option (gmap string string);
  jwt_decode : string -> gmap string string -> list string -> string -> string
               -> result (gmap string json)
}.

(** Number of ['.'] in a token. *)
Fixpoint count_dots (s : string) : nat :=
  match s with
  | EmptyString => 0%nat
  | String c rest =>
      if Ascii.eqb c "."%char then S (count_dots rest) else count_dots rest
  end.

(** [jwt.get_unverified_header(token)]: [jose] cuts the token into
    header, claims and signature at the last and at the first ['.'], and
    turns every failure (too few segments, bad padding, bad JSON) into
    [JWTError]. *)
Definition jwt_get_unverified_header (env : environment) (token : string)
  : result (gmap string string) :=
  if (count_dots token <? 2)%nat then Raise JWTError
  else match header_of env token with
       | Some h => Return h
       | None => Raise JWTError
       end.

(** The loop of lines 110-118: the last descriptor whose [kid] matches
    wins, and every subscript is a plain [key[...]]. *)
Fixpoint find_rsa_key (keys : list (gmap string string)) (kid : string)
    (rsa_key : gmap string string) : result (gmap string string) :=
  match keys with
  | [] => Return rsa_key
  | key :: rest =>
      key_kid ← getitem key "kid";
      if String.eqb key_kid kid then
        kty ← getitem key "kty";
        kid' ← getitem key "kid";
        use ← getitem key "use";
        n ← getitem key "n";
        e ← getitem key "e";
        find_rsa_key rest kid
          (<["kty" := kty]> (<["kid" := kid']> (<["use" := use]>
             (<["n" := n]> (<["e" := e]> ∅)))))
      else find_rsa_key rest kid rsa_key
  end.

(** Truth value of a dict: non-empty. *)
Definition dict_truthy {V : Type} (d : gmap string V) : bool :=
  match map_to_list d with
  | [] => false
  | _ :: _ => true
  end.

Definition jwks_url (env : environment) : string :=
  "https://" ++ AUTH0_DOMAIN env ++ "/.well-known/jwks.json".

Definition issuer (env : environment) : string :=
  "https://" ++ AUTH0_DOMAIN env ++ "/".

(** [json.loads(urlopen(url).read())] for the key set. *)
Definition fetch_jwks (env : environment)
  : result (gmap string (list (gmap string string))) :=
  match urlopen_json env (jwks_url env) with
  | inl jwks => Return jwks
  | inr name => Raise (OtherException name)
  end.

(** [verify_decode_jwt(token)] *)
Definition verify_decode_jwt (env : environment) (token : string)
  : run (gmap string json) :=
  jwks ← call (EvUrlopen (jwks_url env)) (fetch_jwks env);
  unverified_header ←
    call (EvGetUnverifiedHeader token) (jwt_get_unverified_header env token);
  if negb (contains_key unverified_header "kid") then
    pure (Raise (AuthError "invalid_header" "Authorization malformed." 401))
  else
    rsa_key ← pure (keys ← getitem jwks "keys";
                    kid ← getitem unverified_header "kid";
                    find_rsa_key keys kid ∅);
    if dict_truthy rsa_key then
      try_except
        (call (EvDecode token rsa_key (ALGORITHMS env) (API_AUDIENCE env) (issuer env))
              (jwt_decode env token rsa_key (ALGORITHMS env) (API_AUDIENCE env)
                 (issuer env)))
        (fun e =>
           match e with
           | ExpiredSignatureError =>
               pure (Raise (AuthError "token_expired" "Token expired." 401))
           | JWTClaimsError =>
               pure (Raise (AuthError "invalid_claims"
                 "Incorrect claims. Please, check the audience and issuer." 403))
           | _ =>
               pure (Raise (AuthError "invalid_header"
                 "Unable to parse authentication token." 403))
           end)
    else
      pure (Raise (AuthError "invalid_header"
        "Unable to find the appropriate key." 403)).

(** [flask.abort(status, e)]: raises the HTTP exception of that status
    with [e] as its description. *)
Definition abort {A : Type} (status : Z) (description : option exn) : run A :=
  pure (Raise (HTTPException status description)).

Section requires_auth.
Context {R : Type}.
Variable env : environment.
Variable permission : string.
(** The decorated view function. *)
Variable f : list json -> list (string * json) -> result R.

(** The [wrapper] that [requires_auth(permission)(f)] returns, called
    with the positional and keyword arguments of the route, for a
    request with the given headers. *)
Definition requires_auth (headers : gmap string string)
    (args : list json) (kwargs : list (string * json)) : run R :=
  try_except
    (token ← call EvReadHeaders (get_token_auth_header headers);
     payload ← verify_decode_jwt env token;
     _ ← call (EvCheckPermissions permission payload)
              (check_permissions permission payload);
     call (EvCall args kwargs) (f args kwargs))
    (fun e =>
       match e with
       | AuthError _ _ status_code => abort status_code (Some e)
       | _ => pure (Raise e)
       end).
End requires_auth.

End Auth.

(** ** api.py *)

Module Api.

(** The body and status of [jsonify({...}), status]. *)
Record error_response : Type := {
  success : bool;
  error : Z;
  message : string;
  status : Z
}.

(** [handle_error(err, status_code, default_message)] *)
Definition handle_error (err : exn) (status_code : Z) (default_message : string)
  : error_response :=
  match err with
  | AuthError _ description code =>
      {| success := false; error := code; message := description; status := code |}
  | _ =>
      {| success := false; error := status_code; message := default_message;
         status := status_code |}
  end.

Definition handle_400 (err : exn) := handle_error err 400 "Bad Request".
Definition handle_401 (err : exn) := handle_error err 401 "Unauthorized".
Definition handle_403 (err : exn) := handle_error err 403 "Forbidden".
Definition handle_404 (err : exn) := handle_error err 404 "Not Found".
Definition handle_405 (err : exn) := handle_error err 405 "Method Not Allowed".
Definition unprocessable_415 (err : exn) := handle_error err 415 "Unsupported Media Type".
Definition unprocessable_422 (err : exn) := handle_error err 422 "Unprocessable Content".
Definition handle_500 (err : exn) := handle_error err 500 "Internal Server Error".

(** The handlers registered with [@app.errorhandler(code)]. *)
Definition errorhandler (code : Z) : option (exn -> error_response) :=
  if code =? 400 then Some handle_400
  else if code =? 401 then Some handle_401
  else if code =? 403 then Some handle_403
  else if code =? 404 then Some handle_404
  else if code =? 405 then Some handle_405
  else if code =? 415 then Some unprocessable_415
  else if code =? 422 then Some unprocessable_422
  else if code =? 500 then Some handle_500
  else None.

(** What the client receives. *)
Inductive response (R : Type) : Type :=
| Served (r : R)
| Failed (e : error_response)
| Plain (status : Z) (body : string)
| DefaultPage (code : Z).
Arguments Served {R} r.
Arguments Failed {R} e.
Arguments Plain {R} status body.
Arguments DefaultPage {R} code.

(** The request boundary: how Flask turns the outcome of a view function
    into a response. An HTTP exception goes to the handler registered for
    its code, and the handler receives that HTTP exception; an exception
    that is not an HTTP exception is replaced by an internal server
    error, which goes to the handler for 500. *)
Definition dispatch {R : Type} (r : result R) : response R :=
  match r with
  | Return v => Served v
  | Raise (HTTPException code description) =>
      match errorhandler code with
      | Some handler => Failed (handler (HTTPException code description))
      | None => DefaultPage code
      end
  | Raise (AbortWithResponse status body) => Plain status body
  | Raise _ => Failed (handle_500 (HTTPException 500 None))
  end.

Record Drink : Type := { id : Z; title : string; recipe : string }.

Section update_drink.
(** Modelled from the spec: the [Drink] table of [database/models.py],
    which is not among the sources: records of an id, a title and a
    recipe held as a JSON string. [bind_value] is what the database
    driver stores in a text column for a Python value that is not a
    [str]. *)
Variable bind_value : json -> result string.

Definition as_column (v : json) : result string :=
  match v with
  | JStr s => Return s
  | _ => bind_value v
  end.

(** [Drink.query.filter(Drink.title == t).one_or_none()] *)
Definition one_or_none_by_title (db : list Drink) (t : string)
  : result (option Drink) :=
  match List.filter (fun d => String.eqb (title d) t) db with
  | [] => Return None
  | [d] => Return (Some d)
  | _ => Raise MultipleResultsFound
  end.

(** [Drink.query.filter(Drink.id == i).first_or_404()] *)
Definition first_or_404 (db : list Drink) (i : Z) : result Drink :=
  match List.find (fun d => id d =? i) db with
  | Some d => Return d
  | None => Raise (HTTPException 404 None)
  end.

(** [drink.update()]: the row of that id takes the object's values. *)
Fixpoint commit (db : list Drink) (drink : Drink) : list Drink :=
  match db with
  | [] => []
  | d :: rest => if id d =? id drink then drink :: rest
                 else d :: commit rest drink
  end.

(** The test made on every element of a recipe. *)
Definition check_ingredient (ingredient : json) : result unit :=
  name ← py_get ingredient "name";
  color ← py_get ingredient "color";
  parts ← py_get ingredient "parts";
  if negb (truthy name) || negb (truthy color) || negb (truthy parts)
  then Raise (HTTPException 400 None)
  else Return tt.

Fixpoint check_ingredients (items : list json) : result unit :=
  match items with
  | [] => Return tt
  | ingredient :: rest =>
      _ ← check_ingredient ingredient;
      check_ingredients rest
  end.

(** [for ingredient in recipe: ...] for a truthy [recipe]: a list is
    walked; the characters of a string and the keys of a dict are
    strings, which have no [get]; numbers and booleans are not
    iterable. *)
Definition check_recipe (recipe : json) : result unit :=
  match recipe with
  | JArr items => check_ingredients items
  | JStr _ | JObj _ => Raise AttributeError
  | JNull | JBool _ | JNum _ => Raise TypeError
  end.

(** [update_drink(id)] for the parsed request body [body], on the table
    [db]: the new table and the updated record, or what is raised. The
    route converter makes [id] an integer, so the first test never
    aborts. Numbers of the body are integers here. *)
Definition update_drink (db : list Drink) (i : Z) (body : json)
  : result (list Drink * Drink) :=
  if negb (truthy body) then Raise (HTTPException 400 None)
  else
    body_title ← py_get body "title";
    body_recipe ← py_get body "recipe";
    if negb (is_str body_title || is_list body_recipe)
    then Raise (HTTPException 400 None)
    else
      _ ← (if truthy body_recipe then check_recipe body_recipe else Return tt);
      _ ← (if truthy body_title then
             t ← as_column body_title;
             existing_drink ← one_or_none_by_title db t;
             match existing_drink with
             | Some _ => Raise (AbortWithResponse 400 "drink titles must be unique")
             | None => Return tt
             end
           else Return tt);
      drink ← first_or_404 db i;
      new_title ← (if truthy body_title then as_column body_title
                   else Return (title drink));
      let dumped := json_dumps body_recipe in
      let new_recipe := if str_truthy dumped then dumped else recipe drink in
      let drink' := {| id := id drink; title := new_title; recipe := new_recipe |} in
      Return (commit db drink', drink').
End update_drink.

Section create_drink.
(** Modelled from the spec: [Drink.insert] of [database/models.py], which
    is not among the sources, adds the record as a new row; [next_id] is
    the id that the database gives to a row added to a table. *)
Variable next_id : list Drink -> Z.

Definition insert (db : list Drink) (t r : string) : list Drink * Drink :=
  let drink := {| id := next_id db; title := t; recipe := r |} in
  ((db ++ [drink])%list, drink).

(** [create_drink()] for the parsed request body [body], on the table
    [db]: the new table and the new record, or what is raised. *)
Definition create_drink (db : list Drink) (body : json)
  : result (list Drink * Drink) :=
  if negb (truthy body) then Raise (HTTPException 400 None)
  else
    body_title ← py_get body "title";
    body_recipe ← py_get body "recipe";
    if negb (is_str body_title && is_list body_recipe)
    then Raise (HTTPException 400 None)
    else
      match body_title, body_recipe with
      | JStr t, JArr items =>
          existing_drink ← one_or_none_by_title db t;
          match existing_drink with
          | Some _ => Raise (AbortWithResponse 400 "drink titles must be unique")
          | None =>
              _ ← check_ingredients items;
              Return (insert db t (json_dumps body_recipe))
          end
      | _, _ => Raise (HTTPException 400 None)
      end.
End create_drink.

(** [drink.delete()]: the row of that id leaves the table. *)
Fixpoint remove_row (db : list Drink) (drink : Drink) : list Drink :=
  match db with
  | [] => []
  | d :: rest => if id d =? id drink then rest
                 else d :: remove_row rest drink
  end.

(** [delete_drink(id)] on the table [db]: the new table and the id
    reported in the response, or what is raised. The object that
    [first_or_404] returns is a [Drink], so the test on its class
    holds. *)
Definition delete_drink (db : list Drink) (i : Z) : result (list Drink * Z) :=
  drink ← first_or_404 db i;
  Return (remove_row db drink, id drink).

(** The view functions as Flask calls them: the id of the route arrives
    as the keyword argument [id]. *)
Definition id_of_kwargs (kwargs : list (string * json)) : result Z :=
  match kwargs with
  | [(name, JNum i)] => if String.eqb name "id" then Return i else Raise TypeError
  | _ => Raise TypeError
  end.

Section routes.
Variable env : Auth.environment.
Variable bind_value : json -> result string.
Variable next_id : list Drink -> Z.
Variable db : list Drink.
Variable headers : gmap string string.

(** [POST /drinks], behind [@requires_auth("post:drinks")]. *)
Definition post_drinks (body : json) : run (list Drink * Drink) :=
  Auth.requires_auth env "post:drinks"
    (fun args kwargs =>
       match args, kwargs with
       | [], [] => create_drink next_id db body
       | _, _ => Raise TypeError
       end)
    headers [] [].

(** [PATCH /drinks/<id>], behind [@requires_auth("patch:drinks")]. *)
Definition patch_drinks (i : Z) (body : json) : run (list Drink * Drink) :=
  Auth.requires_auth env "patch:drinks"
    (fun args kwargs =>
       match args with
       | [] => i' ← id_of_kwargs kwargs; update_drink bind_value db i' body
       | _ => Raise TypeError
       end)
    headers [] [("id", JNum i)].

(** [DELETE /drinks/<id>], behind [@requires_auth("delete:drinks")]. *)
Definition delete_drinks (i : Z) : run (list Drink * Z) :=
  Auth.requires_auth env "delete:drinks"
    (fun args kwargs =>
       match args with
       | [] => i' ← id_of_kwargs kwargs; delete_drink db i'
       | _ => Raise TypeError
       end)
    headers [] [("id", JNum i)].
End routes.

End Api.

(** ** Vocabulary of the properties *)

Module Model.
Import Auth Api.

(** The stages of the middleware, and the stage each recorded call
    belongs to: downloading the key set and reading the token's header
    are key resolution, [jwt.decode] is verification. *)
Inductive stage : Type :=
| Extraction
| Resolution
| Verification
| Guard
| Operation.

Definition stage_of (ev : event) : stage :=
  match ev with
  | EvReadHeaders => Extraction
  | EvUrlopen _ | EvGetUnverifiedHeader _ => Resolution
  | EvDecode _ _ _ _ _ => Verification
  | EvCheckPermissions _ _ => Guard
  | EvCall _ _ => Operation
  end.

Definition pipeline : list stage :=
  [Extraction; Resolution; Resolution; Verification; Guard; Operation].

Definition is_call (ev : event) : bool :=
  match ev with
  | EvCall _ _ => true
  | _ => false
  end.

(** The invocations of the wrapped operation in a trace. *)
Definition calls (t : list event) : list event := List.filter is_call t.

Definition is_auth_error (e : exn) : bool :=
  match e with
  | AuthError _ _ _ => true
  | _ => false
  end.

(** Number of [" "] in a string. *)
Fixpoint count_spaces (s : string) : nat :=
  match s with
  | EmptyString => 0%nat
  | String c rest =>
      if Ascii.eqb c " "%char then S (count_spaces rest) else count_spaces rest
  end.

(** The five fields that resolution copies. *)
Definition key_fields : list string := ["kty"; "kid"; "use"; "n"; "e"].

Definition same_fields (rsa_key descriptor : gmap string string) : Prop :=
  Forall (fun field => rsa_key !! field = descriptor !! field) key_fields.

Definition has_kid (kid : string) (key : gmap string string) : bool :=
  match key !! "kid" with
  | Some k => String.eqb k kid
  | None => false
  end.

(** The three stages that precede the wrapped operation, as
    [requires_auth] runs them. *)
Definition auth_chain (env : environment) (permission : string)
    (headers : gmap string string) : run bool :=
  token ← call EvReadHeaders (get_token_auth_header headers);
  payload ← verify_decode_jwt env token;
  call (EvCheckPermissions permission payload)
       (check_permissions permission payload).

(** How the handlers of [verify_decode_jwt] translate what [jwt.decode]
    did. *)
Definition decode_outcome (r : result (gmap string json)) : result (gmap string json) :=
  match r with
  | Return payload => Return payload
  | Raise ExpiredSignatureError =>
      Raise (AuthError "token_expired" "Token expired." 401)
  | Raise JWTClaimsError =>
      Raise (AuthError "invalid_claims"
               "Incorrect claims. Please, check the audience and issuer." 403)
  | Raise _ =>
      Raise (AuthError "invalid_header" "Unable to parse authentication token." 403)
  end.

(** The call of [jwt.decode] that [verify_decode_jwt] makes with a
    resolved key, and its record in the trace. *)
Definition decode (env : environment) (token : string) (rsa_key : gmap string string)
  : result (gmap string json) :=
  jwt_decode env token rsa_key (ALGORITHMS env) (API_AUDIENCE env) (issuer env).

Definition decode_event (env : environment) (token : string)
    (rsa_key : gmap string string) : event :=
  EvDecode token rsa_key (ALGORITHMS env) (API_AUDIENCE env) (issuer env).

(** The [except AuthError as e: abort(e.status_code, e)] clause of the
    wrapper, applied to how its body ended. *)
Definition on_auth_error {R : Type} (r : result R) : result R :=
  match r with
  | Raise (AuthError code description status_code) =>
      Raise (HTTPException status_code
               (Some (AuthError code description status_code)))
  | _ => r
  end.

(** The message registered in [api.py] for the two statuses that the
    authorization chain uses. *)
Definition default_message (status_code : Z) : string :=
  if status_code =? 401 then "Unauthorized" else "Forbidden".

(** An Authorization Error carries one of the two statuses 401 and 403. *)
Definition auth_status_ok (e : exn) : Prop :=
  match e with
  | AuthError _ _ status_code => status_code = 401 ∨ status_code = 403
  | _ => True
  end.

(** *** Sample data *)

Definition rsa_descriptor (kid n : string) : gmap string string :=
  <["kty" := "RSA"]> (<["kid" := kid]> (<["use" := "sig"]>
    (<["n" := n]> (<["e" := "AQAB"]> ∅)))).

Definition ec_descriptor (kid : string) : gmap string string :=
  <["kty" := "EC"]> (<["kid" := kid]> (<["use" := "sig"]>
    (<["crv" := "P-256"]> ∅))).

Definition sample_payload : gmap string json :=
  {[ "permissions" := JArr [JStr "get:drinks-detail"; JStr "patch:drinks"] ]}.

(** An authority with one RSA key [K1]. Tokens are told apart by their
    first segment: [nokid] declares no key identifier, [expired] is past
    its expiry, [audience] was issued for another API, [good] verifies
    and carries [sample_payload]; any other token fails verification. *)
Definition sample_env : environment := {|
  AUTH0_DOMAIN := "tenant.example.com";
  ALGORITHMS := ["RS256"];
  API_AUDIENCE := "drinks";
  urlopen_json := fun _ => inl {[ "keys" := [rsa_descriptor "K1" "AAA"] ]};
  header_of := fun token =>
    if String.prefix "nokid." token then Some ∅ else Some {[ "kid" := "K1" ]};
  jwt_decode := fun token _ _ _ _ =>
    if String.prefix "expired." token then Raise ExpiredSignatureError
    else if String.prefix "audience." token then Raise JWTClaimsError
    else if String.prefix "good." token then Return sample_payload
    else Raise JWTError
|}.

Definition bearer (token : string) : gmap string string :=
  {[ "Authorization" := "Bearer " ++ token ]}.

(** A view function without parameters, like [get_drinks_detail]. *)
Definition sample_view (args : list json) (kwargs : list (string * json))
  : result string :=
  match args, kwargs with
  | [], [] => Return "drinks"
  | _, _ => Raise TypeError
  end.

Definition sample_db : list Drink :=
  [ {| id := 1; title := "water"; recipe := "[1]" |};
    {| id := 2; title := "matcha"; recipe := "[2]" |} ].

Definition sample_bind (v : json) : result string :=
  Raise (OtherException "StatementError").

(** *** Vocabulary of the further properties *)

(** An ingredient that the endpoints accept: an object whose [name],
    [color] and [parts] are all truthy. *)
Definition ingredient_ok (v : json) : bool :=
  match v with
  | JObj _ =>
      match py_get v "name", py_get v "color", py_get v "parts" with
      | Return name, Return color, Return parts =>
          truthy name && truthy color && truthy parts
      | _, _, _ => false
      end
  | _ => false
  end.

(** [" ".join(pieces)] *)
Fixpoint join_space (pieces : list string) : string :=
  match pieces with
  | [] => EmptyString
  | [p] => p
  | p :: ps => p ++ " " ++ join_space ps
  end.

Definition titles (db : list Drink) : list string := List.map title db.
Definition ids (db : list Drink) : list Z := List.map id db.

Definition is_decode (ev : event) : bool :=
  match ev with
  | EvDecode _ _ _ _ _ => true
  | _ => false
  end.

Definition is_urlopen (ev : event) : bool :=
  match ev with
  | EvUrlopen _ => true
  | _ => false
  end.

(** The exceptions that can leave [verify_decode_jwt]. *)
Inductive verifier_failure : exn -> Prop :=
| vf_download name : verifier_failure (OtherException name)
| vf_header : verifier_failure JWTError
| vf_key_error k : verifier_failure (KeyError k)
| vf_no_kid :
    verifier_failure (AuthError "invalid_header" "Authorization malformed." 401)
| vf_no_key :
    verifier_failure
      (AuthError "invalid_header" "Unable to find the appropriate key." 403)
| vf_expired : verifier_failure (AuthError "token_expired" "Token expired." 401)
| vf_claims :
    verifier_failure
      (AuthError "invalid_claims"
         "Incorrect claims. Please, check the audience and issuer." 403)
| vf_parse :
    verifier_failure
      (AuthError "invalid_header" "Unable to parse authentication token." 403).

(** The codes and messages registered in [api.py]. *)
Definition registered : list (Z * string) :=
  [ (400, "Bad Request"); (401, "Unauthorized"); (403, "Forbidden");
    (404, "Not Found"); (405, "Method Not Allowed");
    (415, "Unsupported Media Type"); (422, "Unprocessable Content");
    (500, "Internal Server Error") ].

(** The sample authority, serving another document or failing. *)
Definition env_serving
    (document : gmap string (list (gmap string string)) + string) : environment := {|
  AUTH0_DOMAIN := AUTH0_DOMAIN sample_env;
  ALGORITHMS := ALGORITHMS sample_env;
  API_AUDIENCE := API_AUDIENCE sample_env;
  urlopen_json := fun _ => document;
  header_of := header_of sample_env;
  jwt_decode := jwt_decode sample_env
|}.

Definition sample_next_id (db : list Drink) : Z :=
  1 + fold_right Z.max 0 (ids db).

Definition sample_ingredient : json :=
  JObj [("name", JStr "tea"); ("color", JStr "green"); ("parts", JNum 1)].

End Model.
Import Auth Api Model.

(** ** Properties *)

(** *** Strings *)

Lemma split_space_length (s : string) :
  length (split_space s) = S (count_spaces s).
Proof.
  induction s as [|c rest IH]; simpl; [reflexivity|].
  destruct (Ascii.eqb c " "); simpl; [by rewrite IH|].
  destruct (split_space rest); simpl in *; [discriminate | exact IH].
Qed.

Lemma split_space_two (s : string) :
  length (split_space s) = 2%nat ↔ count_spaces s = 1%nat.
Proof. rewrite split_space_length. lia. Qed.

(** *** Token Extractor *)

Lemma get_token_auth_header_absent (headers : gmap string string) :
  headers !! "Authorization" = None →
  get_token_auth_header headers = Raise unauthorized.
Proof.
  intros H. unfold get_token_auth_header, contains_key. by rewrite H.
Qed.

Lemma get_token_auth_header_present (headers : gmap string string) (v : string) :
  headers !! "Authorization" = Some v →
  get_token_auth_header headers =
    if negb (length (split_space v) =? 2)%nat then Raise unauthorized
    else if negb (String.eqb (lower (nth 0 (split_space v) "")) "bearer")
         then Raise unauthorized
         else Return (nth 1 (split_space v) "").
Proof.
  intros H. unfold get_token_auth_header, contains_key, getitem.
  rewrite H. reflexivity.
Qed.

Lemma get_token_auth_header_raises (headers : gmap string string) (e : exn) :
  get_token_auth_header headers = Raise e → e = unauthorized.
Proof.
  destruct (headers !! "Authorization") as [v|] eqn:Hv.
  - rewrite (get_token_auth_header_present _ _ Hv).
    destruct (negb _); [by intros [= <-]|].
    destruct (negb _); [by intros [= <-]|discriminate].
  - rewrite (get_token_auth_header_absent _ Hv). by intros [= <-].
Qed.

(** C4. The Token Extractor fails with Unauthorized (401) exactly when the
    authorization header is absent, or its value does not split on
    spaces into exactly two pieces, or the lowercase form of the first
    piece is not "bearer"; in every other case it returns the second
    piece as it stands. It has no other outcome. *)
Theorem get_token_auth_header_spec (headers : gmap string string) :
  (get_token_auth_header headers = Raise (AuthError "unauthorized" "Unauthorized" 401)
   ↔ headers !! "Authorization" = None
     ∨ ∃ v, headers !! "Authorization" = Some v
            ∧ (length (split_space v) ≠ 2%nat
               ∨ lower (nth 0 (split_space v) "") ≠ "bearer"))
  ∧ (∀ v, headers !! "Authorization" = Some v →
          length (split_space v) = 2%nat →
          lower (nth 0 (split_space v) "") = "bearer" →
          get_token_auth_header headers = Return (nth 1 (split_space v) ""))
  ∧ (get_token_auth_header headers = Raise (AuthError "unauthorized" "Unauthorized" 401)
     ∨ ∃ v p0 p1, headers !! "Authorization" = Some v
                  ∧ split_space v = [p0; p1]
                  ∧ get_token_auth_header headers = Return p1).
Proof.
  destruct (headers !! "Authorization") as [v|] eqn:Hv.
  - rewrite (get_token_auth_header_present _ _ Hv).
    destruct (length (split_space v) =? 2)%nat eqn:Hlen; simpl.
    + apply Nat.eqb_eq in Hlen.
      destruct (String.eqb (lower (nth 0 (split_space v) "")) "bearer") eqn:Hb; simpl.
      * apply String.eqb_eq in Hb. split; [|split].
        -- split; [discriminate|].
           intros [?|(v' & [= <-] & [?|?])]; congruence.
        -- intros v' [= <-] _ _. reflexivity.
        -- right.
           destruct (split_space v) as [|p0 [|p1 [|? ?]]] eqn:Hs; try discriminate.
           exists v, p0, p1. by repeat split.
      * apply String.eqb_neq in Hb. split; [|split].
        -- split; [|reflexivity]. intros _. right. exists v. auto.
        -- intros v' [= <-] _ ?. congruence.
        -- by left.
    + apply Nat.eqb_neq in Hlen. split; [|split].
      * split; [|reflexivity]. intros _. right. exists v. auto.
      * intros v' [= <-] ? _. congruence.
      * by left.
  - rewrite (get_token_auth_header_absent _ Hv). split; [|split].
    + split; [|reflexivity]. intros _. by left.
    + intros v [=].
    + by left.
Qed.

(** The examples of the specification: a lone scheme, three pieces, and
    another scheme are all refused; so is a doubled space. *)
Example get_token_auth_header_refused :
  Forall (fun v => get_token_auth_header {[ "Authorization" := v ]} = Raise unauthorized)
         ["Bearer"; "Bearer a b"; "Basic xyz"; "Bearer  xyz"; ""].
Proof. repeat constructor. Qed.

Example get_token_auth_header_accepted :
  get_token_auth_header (bearer "good.b.c") = Return "good.b.c"
  ∧ get_token_auth_header {[ "Authorization" := "bEARER x" ]} = Return "x".
Proof. split; reflexivity. Qed.

(** *** Token Verifier *)

Ltac run_simpl :=
  unfold call, pure, abort, try_except, mbind, run_bind, result_bind, mret,
    run_ret, result_ret in *; simpl in *.

Section verifier.
Variable env : environment.
Variable token : string.

Lemma verify_decode_jwt_fetch_failed (name : string) :
  urlopen_json env (jwks_url env) = inr name →
  verify_decode_jwt env token
  = Run [EvUrlopen (jwks_url env)] (Raise (OtherException name)).
Proof.
  intros H. unfold verify_decode_jwt, fetch_jwks. run_simpl. by rewrite H.
Qed.

Lemma verify_decode_jwt_header_failed jwks (e : exn) :
  urlopen_json env (jwks_url env) = inl jwks →
  jwt_get_unverified_header env token = Raise e →
  verify_decode_jwt env token =
    Run [EvUrlopen (jwks_url env); EvGetUnverifiedHeader token] (Raise e).
Proof.
  intros H1 H2. unfold verify_decode_jwt, fetch_jwks. run_simpl. rewrite H1. simpl.
  by rewrite H2.
Qed.

Lemma verify_decode_jwt_no_kid jwks (header : gmap string string) :
  urlopen_json env (jwks_url env) = inl jwks →
  jwt_get_unverified_header env token = Return header →
  header !! "kid" = None →
  verify_decode_jwt env token =
    Run [EvUrlopen (jwks_url env); EvGetUnverifiedHeader token]
        (Raise (AuthError "invalid_header" "Authorization malformed." 401)).
Proof.
  intros H1 H2 H3. unfold verify_decode_jwt, fetch_jwks, contains_key. run_simpl.
  rewrite H1. simpl. rewrite H2. simpl. by rewrite H3.
Qed.

Lemma verify_decode_jwt_resolved jwks (header : gmap string string) kid r :
  urlopen_json env (jwks_url env) = inl jwks →
  jwt_get_unverified_header env token = Return header →
  header !! "kid" = Some kid →
  (keys ← getitem jwks "keys"; find_rsa_key keys kid ∅) = r →
  verify_decode_jwt env token =
    match r with
    | Raise e =>
        Run [EvUrlopen (jwks_url env); EvGetUnverifiedHeader token] (Raise e)
    | Return rsa_key =>
        if dict_truthy rsa_key then
          Run [EvUrlopen (jwks_url env); EvGetUnverifiedHeader token;
               decode_event env token rsa_key]
              (decode_outcome (decode env token rsa_key))
        else
          Run [EvUrlopen (jwks_url env); EvGetUnverifiedHeader token]
              (Raise (AuthError "invalid_header"
                        "Unable to find the appropriate key." 403))
    end.
Proof.
  intros H1 H2 H3 <-. unfold verify_decode_jwt, fetch_jwks, contains_key, getitem.
  run_simpl. rewrite H1. simpl. rewrite H2. simpl. rewrite H3. simpl.
  destruct (jwks !! "keys") as [keys|]; simpl; [|reflexivity].
  destruct (find_rsa_key keys kid ∅) as [rsa_key|e]; simpl; [|reflexivity].
  destruct (dict_truthy rsa_key); simpl; [|reflexivity].
  unfold decode, decode_event.
  destruct (jwt_decode env token rsa_key _ _ _) as [p|[]]; reflexivity.
Qed.
End verifier.

(** C5. Once the token's key identifier has matched a key, an expired
    signature becomes the Authorization Error token_expired with status
    401 and a claims mismatch becomes invalid_claims with status 403; the
    code of the error raised tells the three causes apart: token_expired
    only for expiry, invalid_claims only for a claims mismatch,
    invalid_header only for the remaining failures. *)
Theorem verify_decode_jwt_expired_or_claims
    (env : environment) (token kid : string)
    (jwks : gmap string (list (gmap string string)))
    (header rsa_key : gmap string string) (keys : list (gmap string string)) :
  urlopen_json env (jwks_url env) = inl jwks →
  jwt_get_unverified_header env token = Return header →
  header !! "kid" = Some kid →
  jwks !! "keys" = Some keys →
  find_rsa_key keys kid ∅ = Return rsa_key →
  dict_truthy rsa_key = true →
  (decode env token rsa_key = Raise ExpiredSignatureError →
   outcome (verify_decode_jwt env token)
   = Raise (AuthError "token_expired" "Token expired." 401))
  ∧ (decode env token rsa_key = Raise JWTClaimsError →
     outcome (verify_decode_jwt env token)
     = Raise (AuthError "invalid_claims"
                "Incorrect claims. Please, check the audience and issuer." 403))
  ∧ (∀ e code description status_code,
       decode env token rsa_key = Raise e →
       outcome (verify_decode_jwt env token)
       = Raise (AuthError code description status_code) →
       (code = "token_expired" ↔ e = ExpiredSignatureError)
       ∧ (code = "invalid_claims" ↔ e = JWTClaimsError)
       ∧ (code = "invalid_header"
          ↔ e ≠ ExpiredSignatureError ∧ e ≠ JWTClaimsError)).
Proof.
  intros H1 H2 H3 H4 H5 H6.
  rewrite (verify_decode_jwt_resolved env token jwks header kid (Return rsa_key))
    by (try done; unfold getitem; by rewrite H4).
  rewrite H6. simpl. split; [|split].
  - by intros ->.
  - by intros ->.
  - intros e code description status_code ->.
    destruct e; simpl; intros [= <- <- <-]; repeat split; try done;
      intros []; done.
Qed.

Lemma verify_decode_jwt_expired_or_claims_witness :
  outcome (verify_decode_jwt sample_env "expired.b.c")
  = Raise (AuthError "token_expired" "Token expired." 401)
  ∧ outcome (verify_decode_jwt sample_env "audience.b.c")
    = Raise (AuthError "invalid_claims"
               "Incorrect claims. Please, check the audience and issuer." 403).
Proof.
  split.
  - apply (verify_decode_jwt_expired_or_claims sample_env "expired.b.c" "K1"
             {[ "keys" := [rsa_descriptor "K1" "AAA"] ]} {[ "kid" := "K1" ]}
             (rsa_descriptor "K1" "AAA") [rsa_descriptor "K1" "AAA"]);
      vm_compute; reflexivity.
  - apply (verify_decode_jwt_expired_or_claims sample_env "audience.b.c" "K1"
             {[ "keys" := [rsa_descriptor "K1" "AAA"] ]} {[ "kid" := "K1" ]}
             (rsa_descriptor "K1" "AAA") [rsa_descriptor "K1" "AAA"]);
      vm_compute; reflexivity.
Defined.

(** X6. Every other failure of [jwt.decode] is reported as invalid_header
    with status 403. *)
Lemma verify_decode_jwt_other_failure
    (env : environment) (token kid : string)
    (jwks : gmap string (list (gmap string string)))
    (header rsa_key : gmap string string) (keys : list (gmap string string))
    (e : exn) :
  urlopen_json env (jwks_url env) = inl jwks →
  jwt_get_unverified_header env token = Return header →
  header !! "kid" = Some kid →
  jwks !! "keys" = Some keys →
  find_rsa_key keys kid ∅ = Return rsa_key →
  dict_truthy rsa_key = true →
  decode env token rsa_key = Raise e →
  e ≠ ExpiredSignatureError → e ≠ JWTClaimsError →
  outcome (verify_decode_jwt env token)
  = Raise (AuthError "invalid_header" "Unable to parse authentication token." 403).
Proof.
  intros H1 H2 H3 H4 H5 H6 H7 Hx Hc.
  rewrite (verify_decode_jwt_resolved env token jwks header kid (Return rsa_key))
    by (try done; unfold getitem; by rewrite H4).
  rewrite H6, H7. by destruct e.
Qed.

Lemma jwt_get_unverified_header_few_segments (env : environment) (token : string) :
  (count_dots token < 2)%nat →
  jwt_get_unverified_header env token = Raise JWTError.
Proof.
  intros H. unfold jwt_get_unverified_header.
  by destruct (Nat.ltb_spec (count_dots token) 2); [|lia].
Qed.

(** C3. A token with fewer than three segments is not reported as
    invalid_header: [jwt.get_unverified_header] runs outside the [try] of
    [verify_decode_jwt], so the [JWTError] it raises leaves the function
    as it is. *)
Theorem verify_decode_jwt_malformed_token_raw
    (env : environment) (token : string)
    (jwks : gmap string (list (gmap string string))) :
  urlopen_json env (jwks_url env) = inl jwks →
  (count_dots token < 2)%nat →
  verify_decode_jwt env token
  = Run [EvUrlopen (jwks_url env); EvGetUnverifiedHeader token] (Raise JWTError)
  ∧ is_auth_error JWTError = false.
Proof.
  intros H1 H2. split; [|reflexivity].
  apply (verify_decode_jwt_header_failed env token jwks JWTError H1).
  by apply jwt_get_unverified_header_few_segments.
Qed.

Lemma verify_decode_jwt_malformed_token_raw_witness :
  verify_decode_jwt sample_env "abc"
  = Run [EvUrlopen "https://tenant.example.com/.well-known/jwks.json";
         EvGetUnverifiedHeader "abc"] (Raise JWTError)
  ∧ is_auth_error JWTError = false.
Proof.
  apply (verify_decode_jwt_malformed_token_raw sample_env "abc"
           {[ "keys" := [rsa_descriptor "K1" "AAA"] ]}).
  - reflexivity.
  - simpl. lia.
Defined.

(** *** Key resolution *)

Lemma same_fields_copy (key : gmap string string) (kty kid use n e : string) :
  key !! "kty" = Some kty → key !! "kid" = Some kid → key !! "use" = Some use →
  key !! "n" = Some n → key !! "e" = Some e →
  same_fields (<["kty" := kty]> (<["kid" := kid]> (<["use" := use]>
                 (<["n" := n]> (<["e" := e]> ∅))))) key.
Proof.
  intros H1 H2 H3 H4 H5. unfold same_fields, key_fields.
  repeat (apply Forall_cons_2); try apply Forall_nil_2; simpl;
    rewrite ?H1, ?H2, ?H3, ?H4, ?H5; reflexivity.
Qed.

Lemma dict_truthy_insert {V : Type} (k : string) (v : V) (d : gmap string V) :
  dict_truthy (<[k := v]> d) = true.
Proof.
  unfold dict_truthy.
  destruct (map_to_list (<[k := v]> d)) eqn:H; [|reflexivity].
  apply map_to_list_empty_iff in H.
  by apply insert_non_empty in H.
Qed.

Lemma dict_truthy_empty {V : Type} : dict_truthy (∅ : gmap string V) = false.
Proof. unfold dict_truthy. by rewrite map_to_list_empty. Qed.

(** The loop on a key set whose descriptors carry the fields it reads:
    the accumulator ends as the copy of the last match, or as it began
    when nothing matches. *)
Lemma find_rsa_key_scan (keys : list (gmap string string)) (kid : string) :
  Forall (fun key => is_Some (key !! "kid")) keys →
  Forall (fun key => has_kid kid key = true →
                     Forall (fun field => is_Some (key !! field)) key_fields) keys →
  ∀ acc, ∃ rsa_key,
    find_rsa_key keys kid acc = Return rsa_key
    ∧ match last (List.filter (has_kid kid) keys) with
      | Some d => same_fields rsa_key d
                  ∧ dom rsa_key = list_to_set key_fields
                  ∧ dict_truthy rsa_key = true
      | None => rsa_key = acc
      end.
Proof.
  induction keys as [|key rest IH]; intros Hkid Hfields acc.
  - exists acc. by split.
  - apply Forall_cons in Hkid as [[k Hk] Hkid].
    apply Forall_cons in Hfields as [Hkey Hfields].
    assert (has_kid kid key = String.eqb k kid) as Hhas
      by (unfold has_kid; by rewrite Hk).
    simpl. unfold getitem. rewrite !Hk, Hhas. rewrite Hhas in Hkey. simpl.
    destruct (String.eqb k kid) eqn:Heq.
    + specialize (Hkey eq_refl).
      unfold key_fields in Hkey.
      repeat (apply Forall_cons in Hkey as [[? ?] Hkey]).
      repeat match goal with H : key !! _ = Some _ |- _ => rewrite !H end. simpl.
      match goal with |- context [find_rsa_key rest kid ?m] =>
        destruct (IH Hkid Hfields m) as (rsa_key & Hrun & Hlast);
        assert (same_fields m key ∧ dom m = list_to_set key_fields
                ∧ dict_truthy m = true) as Hm
      end.
      { split; [|split].
        - by apply same_fields_copy.
        - unfold key_fields. rewrite !dom_insert_L, dom_empty_L. set_solver.
        - apply dict_truthy_insert. }
      exists rsa_key. split; [exact Hrun|].
      destruct (List.filter (has_kid kid) rest) as [|d ds] eqn:Hf.
      * simpl in *. by subst rsa_key.
      * rewrite last_cons.
        destruct (last (d :: ds)); [exact Hlast | subst rsa_key; exact Hm].
    + destruct (IH Hkid Hfields acc) as (rsa_key & Hrun & Hlast).
      by exists rsa_key.
Qed.

(** C8, as amended. On a key set whose descriptors all carry a kid, and
    whose descriptors matching the token's kid carry kty, use, n and e,
    resolution succeeds and the resolved key has exactly the five fields
    kty, kid, use, n and e of the last descriptor of the set whose kid
    equals the token's: of the matching descriptor itself when there is
    only one. *)
Theorem find_rsa_key_last_match
    (keys : list (gmap string string)) (kid : string) (d : gmap string string) :
  Forall (fun key => is_Some (key !! "kid")) keys →
  Forall (fun key => has_kid kid key = true →
                     Forall (fun field => is_Some (key !! field)) key_fields) keys →
  last (List.filter (has_kid kid) keys) = Some d →
  ∃ rsa_key,
    find_rsa_key keys kid ∅ = Return rsa_key
    ∧ same_fields rsa_key d
    ∧ dom rsa_key = list_to_set key_fields.
Proof.
  intros Hkid Hfields Hlast.
  destruct (find_rsa_key_scan keys kid Hkid Hfields ∅) as (rsa_key & Hrun & H).
  rewrite Hlast in H. exists rsa_key. tauto.
Qed.

Lemma find_rsa_key_last_match_witness :
  ∃ rsa_key,
    find_rsa_key [rsa_descriptor "K0" "ZZZ"; rsa_descriptor "K1" "AAA";
                  ec_descriptor "K2"] "K1" ∅ = Return rsa_key
    ∧ same_fields rsa_key (rsa_descriptor "K1" "AAA")
    ∧ dom rsa_key = list_to_set key_fields.
Proof.
  apply (find_rsa_key_last_match
           [rsa_descriptor "K0" "ZZZ"; rsa_descriptor "K1" "AAA"; ec_descriptor "K2"]
           "K1" (rsa_descriptor "K1" "AAA")).
  - repeat (apply Forall_cons_2); try apply Forall_nil_2; by eexists.
  - repeat (apply Forall_cons_2); try apply Forall_nil_2; intros Hm;
      try discriminate Hm;
      repeat (apply Forall_cons_2); try apply Forall_nil_2; by eexists.
  - reflexivity.
Defined.

(** C8, as stated, fails. With two descriptors of the same kid the
    resolved key is the second one's, so the modulus of the first is not
    preserved; and a matching descriptor without modulus and exponent (an
    elliptic-curve key) stops resolution with a [KeyError]. *)
Lemma find_rsa_key_not_every_match :
  (∃ keys kid d rsa_key,
      d ∈ keys ∧ d !! "kid" = Some kid
      ∧ find_rsa_key keys kid ∅ = Return rsa_key
      ∧ rsa_key !! "n" ≠ d !! "n"
      ∧ ¬ same_fields rsa_key d)
  ∧ (∃ keys kid d,
        d ∈ keys ∧ d !! "kid" = Some kid
        ∧ find_rsa_key keys kid ∅ = Raise (KeyError "n")).
Proof.
  split.
  - exists [rsa_descriptor "K1" "AAA"; rsa_descriptor "K1" "BBB"], "K1",
      (rsa_descriptor "K1" "AAA"), (rsa_descriptor "K1" "BBB").
    assert (rsa_descriptor "K1" "BBB" !! "n" ≠ rsa_descriptor "K1" "AAA" !! "n")
      as Hn by (vm_compute; discriminate).
    split; [|split; [|split; [|split]]].
    + apply list_elem_of_here.
    + vm_compute. reflexivity.
    + vm_compute. reflexivity.
    + exact Hn.
    + intros H. apply Hn. unfold same_fields, key_fields in H.
      by repeat (apply Forall_cons in H as [? H]).
  - exists [ec_descriptor "K1"], "K1", (ec_descriptor "K1").
    split; [apply list_elem_of_here|].
    split; vm_compute; reflexivity.
Qed.

(** The resolved key is not empty exactly when some descriptor matched. *)
Lemma find_rsa_key_truthy (keys : list (gmap string string)) (kid : string) :
  Forall (fun key => is_Some (key !! "kid")) keys →
  Forall (fun key => has_kid kid key = true →
                     Forall (fun field => is_Some (key !! field)) key_fields) keys →
  ∃ rsa_key,
    find_rsa_key keys kid ∅ = Return rsa_key
    ∧ (dict_truthy rsa_key = true ↔ ∃ key, key ∈ keys ∧ has_kid kid key = true).
Proof.
  intros Hkid Hfields.
  destruct (find_rsa_key_scan keys kid Hkid Hfields ∅) as (rsa_key & Hrun & H).
  exists rsa_key. split; [exact Hrun|].
  destruct (last (List.filter (has_kid kid) keys)) as [d|] eqn:Hlast.
  - split; [intros _|tauto].
    exists d. apply last_Some_elem_of in Hlast.
    apply list_elem_of_In, filter_In in Hlast. by rewrite list_elem_of_In.
  - subst rsa_key. rewrite dict_truthy_empty. split; [discriminate|].
    intros (key & Hin & Hm). apply last_None in Hlast.
    assert (In key (List.filter (has_kid kid) keys)) as Hf
      by (apply filter_In; by rewrite <- list_elem_of_In).
    rewrite Hlast in Hf. destruct Hf.
Qed.

(** *** Permission Guard *)

Lemma existsb_str_elem_of (x : string) (items : list json) :
  existsb (fun y => match y with
                    | JStr s => String.eqb x s
                    | _ => false
                    end) items = true
  ↔ JStr x ∈ items.
Proof.
  induction items as [|y rest IH]; simpl.
  - split; [discriminate | intros H; inversion H].
  - rewrite orb_true_iff, IH, elem_of_cons. split.
    + intros [H|H]; [left|by right].
      destruct y; try discriminate. apply String.eqb_eq in H. by subst.
    + intros [<-|H]; [left|by right]. apply String.eqb_refl.
Qed.

Lemma check_permissions_cases (permission : string) (payload : gmap string json) :
  (∀ v, payload !! "permissions" = Some v → is_list v = true) →
  (check_permissions permission payload = Raise forbidden
   ↔ payload !! "permissions" = None
     ∨ ∃ items, payload !! "permissions" = Some (JArr items)
                ∧ JStr permission ∉ items)
  ∧ (check_permissions permission payload = Return true
     ↔ ∃ items, payload !! "permissions" = Some (JArr items)
                ∧ JStr permission ∈ items).
Proof.
  intros Hlist. unfold check_permissions, contains_key, getitem.
  destruct (payload !! "permissions") as [v|] eqn:Hv; simpl.
  - specialize (Hlist v eq_refl). destruct v; try discriminate. simpl.
    destruct (existsb _ items) eqn:Hex; simpl.
    + apply existsb_str_elem_of in Hex. split.
      * split; [discriminate|].
        intros [[=]|(items' & [= <-] & Hn)]. contradiction.
      * split; [intros _; by exists items | reflexivity].
    + assert (JStr permission ∉ items) as Hn
        by (rewrite <- existsb_str_elem_of; by rewrite Hex).
      split.
      * split; [|reflexivity]. intros _. right. by exists items.
      * split; [discriminate|].
        intros (items' & [= <-] & Hin). contradiction.
  - split.
    + split; [|reflexivity]. intros _. by left.
    + split; [discriminate|]. intros (items & [=] & _).
Qed.

(** C6, as amended. For a payload whose permissions entry, when there is
    one, is a list: the Permission Guard fails with forbidden (403)
    exactly when
    the payload has no permissions entry or the required permission is
    not a member of the list, and returns True otherwise. It is a
    function of its two inputs and nothing else. *)
Theorem check_permissions_spec (permission : string) (payload : gmap string json) :
  (∀ v, payload !! "permissions" = Some v → is_list v = true) →
  (check_permissions permission payload = Raise (AuthError "forbidden" "Forbidden" 403)
   ↔ payload !! "permissions" = None
     ∨ ∃ items, payload !! "permissions" = Some (JArr items)
                ∧ JStr permission ∉ items)
  ∧ (check_permissions permission payload = Return true
     ↔ ∃ items, payload !! "permissions" = Some (JArr items)
                ∧ JStr permission ∈ items)
  ∧ (check_permissions permission payload = Raise (AuthError "forbidden" "Forbidden" 403)
     ∨ check_permissions permission payload = Return true)
  ∧ (∀ permission' payload', permission' = permission → payload' = payload →
       check_permissions permission' payload' = check_permissions permission payload).
Proof.
  intros Hlist.
  destruct (check_permissions_cases permission payload Hlist) as [Hf Ht].
  split; [exact Hf|]. split; [exact Ht|]. split; [|by intros ? ? -> ->].
  destruct (payload !! "permissions") as [v|] eqn:Hv.
  - specialize (Hlist v eq_refl). destruct v as [| | | |items|]; try discriminate.
    destruct (existsb (fun y => match y with
                                | JStr s => String.eqb permission s
                                | _ => false
                                end) items) eqn:Hex.
    + right. apply Ht. exists items. split; [done|].
      by apply existsb_str_elem_of.
    + left. apply Hf. right. exists items. split; [done|].
      rewrite <- existsb_str_elem_of. by rewrite Hex.
  - left. apply Hf. by left.
Qed.

(** Outside that data model the membership test is Python's: a string
    is searched for a substring, a number is not iterable. *)
Example check_permissions_not_a_list :
  check_permissions "get:drinks" {[ "permissions" := JStr "get:drinks-detail" ]}
  = Return true
  ∧ check_permissions "get:drinks" {[ "permissions" := JNum 5 ]} = Raise TypeError.
Proof. split; reflexivity. Qed.

Lemma check_permissions_spec_witness :
  (check_permissions "post:drinks" sample_payload
   = Raise (AuthError "forbidden" "Forbidden" 403))
  ∧ check_permissions "patch:drinks" sample_payload = Return true.
Proof.
  assert (∀ v, sample_payload !! "permissions" = Some v → is_list v = true) as Hl
    by (intros v [= <-]; reflexivity).
  split.
  - destruct (check_permissions_spec "post:drinks" sample_payload Hl)
      as (Hforbidden & _).
    apply Hforbidden. right. eexists. split; [reflexivity|].
    rewrite <- existsb_str_elem_of. simpl. discriminate.
  - destruct (check_permissions_spec "patch:drinks" sample_payload Hl)
      as (_ & Hgranted & _).
    apply Hgranted. eexists. split; [reflexivity|].
    rewrite <- existsb_str_elem_of. reflexivity.
Defined.

(** C6, as stated for every decoded payload, fails. A payload whose
    permissions entry is null makes the guard raise [TypeError]: it
    neither fails with forbidden nor returns True. A payload whose
    permissions entry is the string "get:drinks-detail" makes it return
    True for "get:drinks", which the entry does not hold. *)
Lemma check_permissions_not_every_payload :
  (∃ permission payload,
      payload !! "permissions" = Some JNull
      ∧ check_permissions permission payload = Raise TypeError
      ∧ check_permissions permission payload
        ≠ Raise (AuthError "forbidden" "Forbidden" 403)
      ∧ check_permissions permission payload ≠ Return true)
  ∧ (∃ permission payload,
        payload !! "permissions" = Some (JStr "get:drinks-detail")
        ∧ permission ≠ "get:drinks-detail"
        ∧ check_permissions permission payload = Return true).
Proof.
  split.
  - exists "get:drinks", {[ "permissions" := JNull ]}.
    split; [reflexivity|]. split; [reflexivity|]. split; discriminate.
  - exists "get:drinks", {[ "permissions" := JStr "get:drinks-detail" ]}.
    split; [reflexivity|]. split; [discriminate | reflexivity].
Qed.

(** *** Authorization Middleware *)

Section middleware.
Context {R : Type}.
Variable env : environment.
Variable permission : string.
Variable f : list json -> list (string * json) -> result R.
Variable headers : gmap string string.
Variable args : list json.
Variable kwargs : list (string * json).

(** The chain, stage by stage. *)
Lemma auth_chain_unfold :
  auth_chain env permission headers =
    match get_token_auth_header headers with
    | Raise e => Run [EvReadHeaders] (Raise e)
    | Return token =>
        match outcome (verify_decode_jwt env token) with
        | Raise e =>
            Run (EvReadHeaders :: trace (verify_decode_jwt env token)) (Raise e)
        | Return payload =>
            Run (EvReadHeaders :: trace (verify_decode_jwt env token)
                   ++ [EvCheckPermissions permission payload])
                (check_permissions permission payload)
        end
    end.
Proof.
  unfold auth_chain. run_simpl.
  destruct (get_token_auth_header headers) as [token|e]; simpl; [|reflexivity].
  destruct (outcome (verify_decode_jwt env token)); reflexivity.
Qed.

(** The wrapper is the chain, then the wrapped operation, under the
    handler for Authorization Errors. *)
Lemma requires_auth_unfold :
  requires_auth env permission f headers args kwargs =
    match outcome (auth_chain env permission headers) with
    | Raise e =>
        Run (trace (auth_chain env permission headers)) (on_auth_error (Raise e))
    | Return _ =>
        Run (trace (auth_chain env permission headers) ++ [EvCall args kwargs])
            (on_auth_error (f args kwargs))
    end.
Proof.
  rewrite auth_chain_unfold. unfold requires_auth. run_simpl.
  destruct (get_token_auth_header headers) as [token|e]; simpl.
  - destruct (outcome (verify_decode_jwt env token)) as [payload|e]; simpl.
    + destruct (check_permissions permission payload) as [b|e]; simpl.
      * rewrite <- app_assoc. simpl.
        destruct (f args kwargs) as [r|[]]; simpl;
          rewrite ?app_nil_r; reflexivity.
      * destruct e; simpl; rewrite ?app_nil_r; reflexivity.
    + destruct e; simpl; rewrite ?app_nil_r; reflexivity.
  - destruct e; reflexivity.
Qed.
End middleware.

(** The three ways a verification can go: the download fails; the key is
    not resolved; or [jwt.decode] is called with the resolved key and
    decides. *)
Lemma verify_decode_jwt_shape (env : environment) (token : string) :
  (∃ name, verify_decode_jwt env token
           = Run [EvUrlopen (jwks_url env)] (Raise (OtherException name)))
  ∨ (∃ e, verify_decode_jwt env token
          = Run [EvUrlopen (jwks_url env); EvGetUnverifiedHeader token] (Raise e)
          ∧ auth_status_ok e)
  ∨ (∃ rsa_key, verify_decode_jwt env token
                = Run [EvUrlopen (jwks_url env); EvGetUnverifiedHeader token;
                       decode_event env token rsa_key]
                      (decode_outcome (decode env token rsa_key))).
Proof.
  destruct (urlopen_json env (jwks_url env)) as [jwks|name] eqn:H1.
  2: { left. exists name. by apply verify_decode_jwt_fetch_failed. }
  right.
  destruct (jwt_get_unverified_header env token) as [header|e] eqn:H2.
  2: { left. exists e. split; [by eapply verify_decode_jwt_header_failed|].
       unfold jwt_get_unverified_header in H2.
       destruct (count_dots token <? 2)%nat; [by injection H2 as <-|].
       destruct (header_of env token); [discriminate | by injection H2 as <-]. }
  destruct (header !! "kid") as [kid|] eqn:H3.
  2: { left. eexists. split; [by eapply verify_decode_jwt_no_kid|]. by left. }
  rewrite (verify_decode_jwt_resolved env token jwks header kid _ H1 H2 H3 eq_refl).
  destruct (keys ← getitem jwks "keys"; find_rsa_key keys kid ∅)
    as [rsa_key|e] eqn:H4.
  - destruct (dict_truthy rsa_key).
    + right. by exists rsa_key.
    + left. eexists. split; [reflexivity|]. by right.
  - left. exists e. split; [reflexivity|].
    unfold getitem in H4. run_simpl.
    destruct (jwks !! "keys") as [keys|]; [|by injection H4 as <-].
    clear H1. revert H4. generalize (∅ : gmap string string).
    induction keys as [|key rest IH]; intros acc H4; simpl in H4; [discriminate|].
    unfold getitem in H4. run_simpl.
    repeat match type of H4 with
           | context [match ?x !! ?k with _ => _ end] =>
               destruct (x !! k); [|by injection H4 as <-]
           | context [if ?b then _ else _] => destruct b
           end; by eapply IH.
Qed.

Lemma decode_outcome_status (r : result (gmap string json)) (e : exn) :
  decode_outcome r = Raise e → is_auth_error e = true ∧ auth_status_ok e.
Proof.
  destruct r as [payload|[]]; simpl; intros [= <-]; split; try reflexivity;
    simpl; auto.
Qed.

Lemma check_permissions_raises (permission : string) (payload : gmap string json)
    (e : exn) :
  check_permissions permission payload = Raise e → e = forbidden ∨ e = TypeError.
Proof.
  unfold check_permissions, contains_key, getitem.
  destruct (payload !! "permissions") as [v|]; simpl; [|intros [= <-]; by left].
  destruct v; simpl; try (intros [= <-]; by right);
    match goal with |- context [negb ?b] => destruct b end; simpl;
    intros [= <-]; by left.
Qed.

Ltac trace_elem H :=
  repeat (apply elem_of_cons in H as [H|H]; [try discriminate H|]);
  try (by apply elem_of_nil in H).

Section middleware_properties.
Context {R : Type}.
Variable env : environment.
Variable permission : string.
Variable f : list json -> list (string * json) -> result R.
Variable headers : gmap string string.
Variable args : list json.
Variable kwargs : list (string * json).

(** The chain never invokes the wrapped operation, and an
    Authorization Error that leaves it has status 401 or 403. *)
Lemma auth_chain_no_call :
  calls (trace (auth_chain env permission headers)) = []
  ∧ ∀ e, outcome (auth_chain env permission headers) = Raise e → auth_status_ok e.
Proof.
  rewrite auth_chain_unfold.
  destruct (get_token_auth_header headers) as [token|e] eqn:Ht; simpl.
  2: { split; [reflexivity|]. intros e' [= <-].
       apply get_token_auth_header_raises in Ht as ->. by left. }
  destruct (verify_decode_jwt_shape env token)
    as [(name & ->)|[(e & -> & He)|(rsa_key & ->)]]; simpl.
  - split; [reflexivity|]. by intros e [= <-].
  - split; [reflexivity|]. by intros e' [= <-].
  - destruct (decode_outcome (decode env token rsa_key)) as [payload|e] eqn:Hd;
      simpl.
    + split; [reflexivity|]. intros e He.
      apply check_permissions_raises in He as [->| ->]; simpl; auto.
    + split; [reflexivity|]. intros e' [= <-].
      by apply decode_outcome_status in Hd as [_ ?].
Qed.

(** C7. The calls of a run of the middleware are an initial part of
    the sequence extraction, key resolution (download, then the token's
    header), verification, permission check, wrapped operation: none out
    of order, none twice, none without those before it. When the
    Permission Guard is called, it is called with the middleware's
    permission on the payload that [jwt.decode] returned for the token
    that extraction returned. *)
Theorem requires_auth_stage_order :
  map stage_of (trace (requires_auth env permission f headers args kwargs))
    `prefix_of` pipeline
  ∧ ∀ permission' payload,
      EvCheckPermissions permission' payload
        ∈ trace (requires_auth env permission f headers args kwargs) →
      permission' = permission
      ∧ ∃ token rsa_key,
          get_token_auth_header headers = Return token
          ∧ decode env token rsa_key = Return payload
          ∧ [EvReadHeaders; EvUrlopen (jwks_url env);
             EvGetUnverifiedHeader token; decode_event env token rsa_key;
             EvCheckPermissions permission payload]
              `prefix_of` trace (requires_auth env permission f headers args kwargs).
Proof.
  rewrite requires_auth_unfold, auth_chain_unfold. unfold pipeline.
  destruct (get_token_auth_header headers) as [token|e] eqn:Ht; simpl.
  2: { split; [by eexists|]. intros p' c H. trace_elem H. }
  destruct (verify_decode_jwt_shape env token)
    as [(name & ->)|[(e & -> & He)|(rsa_key & ->)]]; simpl.
  - split; [by eexists|]. intros p' c H. trace_elem H.
  - split; [by eexists|]. intros p' c H. trace_elem H.
  - destruct (decode env token rsa_key) as [payload|e] eqn:Hd.
    2: { replace (decode_outcome (Raise e)) with
           (Raise (A:=gmap string json)
              (match decode_outcome (Raise e) with
               | Raise e' => e' | Return _ => e end))
           by (by destruct e).
         simpl. split; [by eexists|]. intros p' c H.
         unfold decode_event in H. trace_elem H. }
    simpl.
    destruct (check_permissions permission payload) as [b|e]; simpl.
    + split; [by eexists|]. intros p' c H.
      unfold decode_event in H. trace_elem H.
      injection H as -> ->. split; [reflexivity|].
      exists token, rsa_key. repeat split; first [done | by eexists].
    + split; [by eexists|]. intros p' c H.
      unfold decode_event in H. trace_elem H.
      injection H as -> ->. split; [reflexivity|].
      exists token, rsa_key. repeat split; first [done | by eexists].
Qed.
End middleware_properties.

Section middleware_outcomes.
Context {R : Type}.
Variable env : environment.
Variable permission : string.
Variable f : list json -> list (string * json) -> result R.
Variable headers : gmap string string.
Variable args : list json.
Variable kwargs : list (string * json).

(** C1. On a request whose token is extracted, verified and holds the
    required permission, the wrapped operation is invoked exactly once,
    after the three stages, and what it is given is the positional and
    keyword arguments of the wrapper and nothing else: the decoded
    payload is handed to the Permission Guard only and is no argument
    of the call, although the comment above [requires_auth] announces
    that the decorator passes it on. *)
Theorem requires_auth_call_without_payload
    (token : string) (payload : gmap string json) :
  get_token_auth_header headers = Return token →
  outcome (verify_decode_jwt env token) = Return payload →
  check_permissions permission payload = Return true →
  trace (requires_auth env permission f headers args kwargs)
  = EvReadHeaders :: trace (verify_decode_jwt env token)
      ++ [EvCheckPermissions permission payload; EvCall args kwargs]
  ∧ calls (trace (requires_auth env permission f headers args kwargs))
    = [EvCall args kwargs]
  ∧ outcome (requires_auth env permission f headers args kwargs)
    = on_auth_error (f args kwargs).
Proof.
  intros Ht Hv Hc.
  pose proof (auth_chain_no_call env permission headers) as [Hno _].
  rewrite requires_auth_unfold. rewrite auth_chain_unfold in *.
  rewrite Ht, Hv, Hc in *. simpl in *.
  assert (∀ ev : event,
             ((trace (verify_decode_jwt env token)
                 ++ [EvCheckPermissions permission payload]) ++ [ev]
              = trace (verify_decode_jwt env token)
                  ++ [EvCheckPermissions permission payload; ev])%list) as Happ
    by (intros ev; by rewrite <- List.app_assoc).
  rewrite Happ. split; [reflexivity|]. split; [|reflexivity].
  unfold calls in *. rewrite List.filter_app in *. simpl in *.
  apply app_eq_nil in Hno as [-> _]. reflexivity.
Qed.

(** C2. When a stage of the chain raises an Authorization Error, the
    wrapped operation is not invoked and the wrapper raises the HTTP
    exception of the error's status (401 or 403) with the error as its
    description. The handler registered for that status receives the
    HTTP exception, not the Authorization Error, so the response has
    the error's status but the fixed message of the status:
    "Unauthorized" for 401 and "Forbidden" for 403, whatever the
    error's own description. *)
Theorem requires_auth_error_response (code description : string) (status_code : Z) :
  outcome (auth_chain env permission headers)
  = Raise (AuthError code description status_code) →
  calls (trace (requires_auth env permission f headers args kwargs)) = []
  ∧ outcome (requires_auth env permission f headers args kwargs)
    = Raise (HTTPException status_code
               (Some (AuthError code description status_code)))
  ∧ (status_code = 401 ∨ status_code = 403)
  ∧ dispatch (outcome (requires_auth env permission f headers args kwargs))
    = Failed {| success := false; error := status_code;
                message := default_message status_code;
                status := status_code |}.
Proof.
  intros He.
  pose proof (auth_chain_no_call env permission headers) as [Hno Hst].
  specialize (Hst _ He). simpl in Hst.
  rewrite requires_auth_unfold, He. simpl.
  split; [exact Hno|]. split; [reflexivity|]. split; [exact Hst|].
  destruct Hst as [-> | ->]; reflexivity.
Qed.

(** A token with fewer than three segments ends the request with an
    internal server error. *)
Lemma requires_auth_malformed_token (token : string)
    (jwks : gmap string (list (gmap string string))) :
  get_token_auth_header headers = Return token →
  urlopen_json env (jwks_url env) = inl jwks →
  (count_dots token < 2)%nat →
  outcome (requires_auth env permission f headers args kwargs) = Raise JWTError
  ∧ dispatch (outcome (requires_auth env permission f headers args kwargs))
    = Failed {| success := false; error := 500;
                message := "Internal Server Error"; status := 500 |}.
Proof.
  intros Ht Hj Hd.
  pose proof (verify_decode_jwt_header_failed env token jwks JWTError Hj
                (jwt_get_unverified_header_few_segments env token Hd)) as Hv.
  rewrite requires_auth_unfold, auth_chain_unfold, Ht, Hv. simpl. by split.
Qed.
End middleware_outcomes.

Lemma requires_auth_call_without_payload_witness :
  calls (trace (requires_auth sample_env "get:drinks-detail" sample_view
                  (bearer "good.b.c") [] []))
  = [EvCall [] []]
  ∧ outcome (requires_auth sample_env "get:drinks-detail" sample_view
               (bearer "good.b.c") [] [])
    = Return "drinks".
Proof.
  destruct (requires_auth_call_without_payload sample_env "get:drinks-detail"
              sample_view (bearer "good.b.c") [] [] "good.b.c" sample_payload)
    as (_ & Hcalls & Hout); try (vm_compute; reflexivity).
  split; [exact Hcalls | exact Hout].
Defined.

Lemma requires_auth_error_response_witness :
  outcome (auth_chain sample_env "get:drinks-detail" (bearer "nokid.b.c"))
  = Raise (AuthError "invalid_header" "Authorization malformed." 401)
  ∧ dispatch (outcome (requires_auth sample_env "get:drinks-detail" sample_view
                         (bearer "nokid.b.c") [] []))
    = Failed {| success := false; error := 401; message := "Unauthorized";
                status := 401 |}.
Proof.
  assert (outcome (auth_chain sample_env "get:drinks-detail" (bearer "nokid.b.c"))
          = Raise (AuthError "invalid_header" "Authorization malformed." 401))
    as Hchain by (vm_compute; reflexivity).
  split; [exact Hchain|].
  destruct (requires_auth_error_response sample_env "get:drinks-detail" sample_view
              (bearer "nokid.b.c") [] [] _ _ _ Hchain) as (_ & _ & _ & Hresp).
  exact Hresp.
Defined.

(** C10. The header value "Bearer " (the scheme and one space) is
    accepted and the token returned is the empty string; so is every
    value that splits into a first piece that lowercases to "bearer" and
    an empty second piece. The middleware then starts verification with
    the empty token: the key set is downloaded, and when it arrives
    [jose] is asked for the header of the empty token and raises
    [JWTError]; nothing rejects the request at extraction. *)
Theorem get_token_auth_header_empty_token :
  get_token_auth_header {[ "Authorization" := "Bearer " ]} = Return ""
  ∧ (∀ (headers : gmap string string) v p0,
       headers !! "Authorization" = Some v →
       split_space v = [p0; ""] →
       lower p0 = "bearer" →
       get_token_auth_header headers = Return "")
  ∧ (∀ (R : Type) env permission
       (f : list json -> list (string * json) -> result R) headers args kwargs,
       get_token_auth_header headers = Return "" →
       trace (requires_auth env permission f headers args kwargs)
       = EvReadHeaders :: trace (verify_decode_jwt env "")
       ∧ (∀ jwks, urlopen_json env (jwks_url env) = inl jwks →
            requires_auth env permission f headers args kwargs
            = Run [EvReadHeaders; EvUrlopen (jwks_url env);
                   EvGetUnverifiedHeader ""] (Raise JWTError))).
Proof.
  split; [reflexivity|]. split.
  - intros headers v p0 Hv Hs Hb.
    rewrite (get_token_auth_header_present _ _ Hv), Hs. simpl.
    by rewrite Hb.
  - intros R env permission f headers args kwargs Ht.
    rewrite requires_auth_unfold, auth_chain_unfold, Ht.
    destruct (urlopen_json env (jwks_url env)) as [jwks|name] eqn:Hj.
    + rewrite (verify_decode_jwt_header_failed env "" jwks JWTError Hj eq_refl).
      simpl. split; [reflexivity|]. by intros.
    + rewrite (verify_decode_jwt_fetch_failed env "" name Hj). simpl.
      split; [reflexivity|]. intros ? [=].
Qed.

(** *** PATCH /drinks/<id> *)

(** [json.dumps] never returns the empty string. *)

Lemma json_dumps_truthy (v : json) : str_truthy (json_dumps v) = true.
Proof.
  destruct v as [|[]|n| | |]; try reflexivity.
  simpl. destruct (Z.to_int n) as [d|d]; [|reflexivity].
  by destruct d.
Qed.

Section update_drink_properties.
Variable bind_value : json -> result string.

(** C9. Whenever the update goes through, the stored title is kept if
    the title of the body is falsy, but the stored recipe is never
    kept: it becomes the JSON text of the recipe of the body, "[]" for
    an empty list and "null" for no recipe at all, because
    [json.dumps] returns no empty string and the fallback to the stored
    recipe is never taken. *)
Theorem update_drink_overwrites_recipe
    (db db' : list Drink) (i : Z) (body : json) (drink drink' : Drink) :
  first_or_404 db i = Return drink →
  update_drink bind_value db i body = Return (db', drink') →
  ∃ body_title body_recipe,
    py_get body "title" = Return body_title
    ∧ py_get body "recipe" = Return body_recipe
    ∧ (truthy body_title = false → title drink' = title drink)
    ∧ recipe drink' = json_dumps body_recipe
    ∧ (body_recipe = JArr [] → recipe drink' = "[]")
    ∧ (body_recipe = JNull → recipe drink' = "null")
    ∧ db' = commit db drink'.
Proof.
  intros Hd. unfold update_drink.
  destruct (truthy body); simpl; [|discriminate].
  destruct (py_get body "title") as [body_title|] ; simpl; [|discriminate].
  destruct (py_get body "recipe") as [body_recipe|]; simpl; [|discriminate].
  destruct (is_str body_title || is_list body_recipe); simpl; [|discriminate].
  rewrite json_dumps_truthy.
  destruct (if truthy body_recipe then check_recipe body_recipe else Return tt);
    simpl; [|discriminate].
  destruct (truthy body_title) eqn:Htitle; simpl.
  - destruct (as_column bind_value body_title) as [t|]; simpl; [|discriminate].
    destruct (one_or_none_by_title db t) as [[]|]; simpl; try discriminate.
    rewrite Hd. simpl. intros [= <- <-].
    exists body_title, body_recipe. simpl.
    split; [done|]. split; [done|]. split; [intros; congruence|].
    split; [done|]. split; [by intros ->|]. split; [by intros ->|]. done.
  - rewrite Hd. simpl. intros [= <- <-].
    exists body_title, body_recipe. simpl.
    split; [done|]. split; [done|]. split; [intros; congruence|].
    split; [done|]. split; [by intros ->|]. split; [by intros ->|]. done.
Qed.
End update_drink_properties.

Lemma update_drink_overwrites_recipe_witness :
  ∃ db' drink',
    update_drink sample_bind sample_db 1
      (JObj [("title", JStr ""); ("recipe", JArr [])]) = Return (db', drink')
    ∧ title drink' = "water"
    ∧ recipe drink' = "[]".
Proof.
  eexists _, _. split; [reflexivity|].
  destruct (update_drink_overwrites_recipe sample_bind sample_db _ 1
              (JObj [("title", JStr ""); ("recipe", JArr [])])
              {| id := 1; title := "water"; recipe := "[1]" |} _
              eq_refl eq_refl)
    as (body_title & body_recipe & Ht & Hr & Htitle & _ & Hempty & _).
  injection Ht as <-. injection Hr as <-.
  split; [exact (Htitle eq_refl) | exact (Hempty eq_refl)].
Defined.

(** ** Further properties *)

(** *** Token Extractor *)

Lemma split_space_no_space (s : string) :
  count_spaces s = 0%nat → split_space s = [s].
Proof.
  induction s as [|c rest IH]; simpl; [reflexivity|].
  destruct (Ascii.eqb c " "); [discriminate|].
  intros H. by rewrite (IH H).
Qed.

Lemma split_space_app (s t : string) :
  count_spaces s = 0%nat → split_space (s ++ " " ++ t) = s :: split_space t.
Proof.
  induction s as [|c rest IH]; simpl; [reflexivity|].
  destruct (Ascii.eqb c " "); [discriminate|].
  intros H. by rewrite (IH H).
Qed.

Lemma split_space_pieces (s : string) :
  Forall (fun p => count_spaces p = 0%nat) (split_space s).
Proof.
  induction s as [|c rest IH]; simpl; [by repeat constructor|].
  destruct (Ascii.eqb c " ") eqn:Hc; [by constructor|].
  destruct (split_space rest) as [|p ps]; [by repeat constructor; simpl; rewrite Hc|].
  apply Forall_cons in IH as [Hp Hps].
  constructor; [|exact Hps]. simpl. by rewrite Hc.
Qed.

Lemma split_space_join (s : string) : join_space (split_space s) = s.
Proof.
  induction s as [|c rest IH]; simpl; [reflexivity|].
  destruct (Ascii.eqb c " ") eqn:Hc.
  - apply Ascii.eqb_eq in Hc as ->.
    pose proof (split_space_length rest) as Hl.
    destruct (split_space rest) as [|p ps]; [discriminate|].
    simpl in *. by rewrite IH.
  - pose proof (split_space_length rest) as Hl.
    destruct (split_space rest) as [|p ps]; [discriminate|].
    destruct ps; simpl in *; by rewrite <- IH.
Qed.

(** X1. Round trip of the bearer header: whatever else the request
    carries, a header value made of a scheme that lowercases to "bearer",
    one space and a token, the scheme and the token holding no space,
    gives back exactly that token. *)
Theorem get_token_auth_header_round_trip
    (headers : gmap string string) (scheme token : string) :
  count_spaces scheme = 0%nat →
  count_spaces token = 0%nat →
  lower scheme = "bearer" →
  headers !! "Authorization" = Some (scheme ++ " " ++ token) →
  get_token_auth_header headers = Return token.
Proof.
  intros Hs Ht Hb Hv.
  rewrite (get_token_auth_header_present _ _ Hv).
  rewrite (split_space_app _ _ Hs), (split_space_no_space _ Ht). simpl.
  by rewrite Hb.
Qed.

Lemma get_token_auth_header_round_trip_witness :
  get_token_auth_header
    (<["Accept" := "*/*"]> {[ "Authorization" := "BEARER good.b.c" ]})
  = Return "good.b.c".
Proof.
  apply (get_token_auth_header_round_trip _ "BEARER" "good.b.c");
    reflexivity.
Defined.

(** X2. A token that the extractor returns holds no space, and the header
    it came from is a scheme without space that lowercases to "bearer",
    one space, and that token: nothing of the header is dropped or
    rewritten. *)
Theorem get_token_auth_header_returned
    (headers : gmap string string) (token : string) :
  get_token_auth_header headers = Return token →
  ∃ scheme,
    headers !! "Authorization" = Some (scheme ++ " " ++ token)
    ∧ lower scheme = "bearer"
    ∧ count_spaces scheme = 0%nat
    ∧ count_spaces token = 0%nat.
Proof.
  destruct (headers !! "Authorization") as [v|] eqn:Hv.
  2: { by rewrite (get_token_auth_header_absent _ Hv). }
  rewrite (get_token_auth_header_present _ _ Hv).
  pose proof (split_space_join v) as Hj.
  pose proof (split_space_pieces v) as Hp.
  destruct (split_space v) as [|p0 [|p1 [|? ?]]]; simpl; try discriminate.
  destruct (String.eqb (lower p0) "bearer") eqn:Hb; simpl; [|discriminate].
  intros [= <-]. exists p0. simpl in Hj. rewrite Hj.
  apply String.eqb_eq in Hb.
  apply Forall_cons in Hp as [H0 Hp]. apply Forall_cons in Hp as [H1 _].
  done.
Qed.

Lemma get_token_auth_header_returned_witness :
  ∃ scheme,
    bearer "good.b.c" !! "Authorization" = Some (scheme ++ " " ++ "good.b.c")
    ∧ lower scheme = "bearer"
    ∧ count_spaces scheme = 0%nat
    ∧ count_spaces "good.b.c" = 0%nat.
Proof.
  apply (get_token_auth_header_returned (bearer "good.b.c") "good.b.c").
  reflexivity.
Defined.

(** *** Token Verifier *)

Lemma find_rsa_key_raises (keys : list (gmap string string)) (kid : string)
    (acc : gmap string string) (e : exn) :
  find_rsa_key keys kid acc = Raise e → ∃ k, e = KeyError k.
Proof.
  revert acc. induction keys as [|key rest IH]; intros acc H; simpl in H;
    [discriminate|].
  unfold getitem in H. run_simpl.
  repeat match type of H with
         | context [match ?x !! ?k with _ => _ end] =>
             destruct (x !! k); [|injection H as <-; by eexists]
         | context [if ?b then _ else _] => destruct b
         end; by eapply IH.
Qed.

Lemma find_rsa_key_unknown_kid (keys : list (gmap string string)) (kid : string)
    (acc : gmap string string) :
  Forall (fun key => ∃ k, key !! "kid" = Some k ∧ k ≠ kid) keys →
  find_rsa_key keys kid acc = Return acc.
Proof.
  induction 1 as [|key rest (k & Hk & Hne) _ IH]; simpl; [reflexivity|].
  unfold getitem. rewrite Hk. simpl.
  apply String.eqb_neq in Hne. by rewrite Hne.
Qed.

Lemma find_rsa_key_without_kid (keys : list (gmap string string)) (kid : string)
    (acc : gmap string string) :
  Exists (fun key => key !! "kid" = None) keys →
  ∃ k, find_rsa_key keys kid acc = Raise (KeyError k).
Proof.
  intros H. revert acc. induction H as [key rest Hk|key rest _ IH]; intros acc; simpl.
  - unfold getitem. rewrite Hk. simpl. by eexists.
  - unfold getitem. run_simpl.
    repeat match goal with
           | |- context [match ?x !! ?k with _ => _ end] =>
               destruct (x !! k); [|by eexists]
           | |- context [if ?b then _ else _] => destruct b
           end; apply IH.
Qed.

(** Every way a verification can go. *)
Lemma verify_decode_jwt_cases (env : environment) (token : string) :
  (∃ name, verify_decode_jwt env token
           = Run [EvUrlopen (jwks_url env)] (Raise (OtherException name)))
  ∨ (∃ e, verify_decode_jwt env token
          = Run [EvUrlopen (jwks_url env); EvGetUnverifiedHeader token] (Raise e)
          ∧ (e = JWTError
             ∨ e = AuthError "invalid_header" "Authorization malformed." 401
             ∨ e = AuthError "invalid_header"
                     "Unable to find the appropriate key." 403
             ∨ ∃ k, e = KeyError k))
  ∨ (∃ rsa_key, dict_truthy rsa_key = true
                ∧ verify_decode_jwt env token
                  = Run [EvUrlopen (jwks_url env); EvGetUnverifiedHeader token;
                         decode_event env token rsa_key]
                        (decode_outcome (decode env token rsa_key))).
Proof.
  destruct (urlopen_json env (jwks_url env)) as [jwks|name] eqn:H1.
  2: { left. exists name. by apply verify_decode_jwt_fetch_failed. }
  right.
  destruct (jwt_get_unverified_header env token) as [header|e] eqn:H2.
  2: { left. exists e. split; [by eapply verify_decode_jwt_header_failed|].
       left. unfold jwt_get_unverified_header in H2.
       destruct (count_dots token <? 2)%nat; [by injection H2 as <-|].
       destruct (header_of env token); [discriminate | by injection H2 as <-]. }
  destruct (header !! "kid") as [kid|] eqn:H3.
  2: { left. eexists. split; [by eapply verify_decode_jwt_no_kid|]. auto. }
  rewrite (verify_decode_jwt_resolved env token jwks header kid _ H1 H2 H3 eq_refl).
  destruct (keys ← getitem jwks "keys"; find_rsa_key keys kid ∅)
    as [rsa_key|e] eqn:H4.
  - destruct (dict_truthy rsa_key) eqn:Ht.
    + right. by exists rsa_key.
    + left. eexists. split; [reflexivity|]. auto.
  - left. exists e. split; [reflexivity|]. do 3 right.
    unfold getitem in H4. run_simpl.
    destruct (jwks !! "keys") as [keys|]; [|injection H4 as <-; by eexists].
    by eapply find_rsa_key_raises.
Qed.

(** X3. A token whose header declares no key identifier is refused with
    invalid_header and status 401, after the key set was downloaded and
    without any call of [jwt.decode]. *)
Theorem verify_decode_jwt_missing_kid
    (env : environment) (token : string)
    (jwks : gmap string (list (gmap string string)))
    (header : gmap string string) :
  urlopen_json env (jwks_url env) = inl jwks →
  jwt_get_unverified_header env token = Return header →
  header !! "kid" = None →
  outcome (verify_decode_jwt env token)
  = Raise (AuthError "invalid_header" "Authorization malformed." 401)
  ∧ List.filter is_decode (trace (verify_decode_jwt env token)) = [].
Proof.
  intros H1 H2 H3.
  by rewrite (verify_decode_jwt_no_kid env token jwks header H1 H2 H3).
Qed.

Lemma verify_decode_jwt_missing_kid_witness :
  outcome (verify_decode_jwt sample_env "nokid.b.c")
  = Raise (AuthError "invalid_header" "Authorization malformed." 401)
  ∧ List.filter is_decode (trace (verify_decode_jwt sample_env "nokid.b.c")) = [].
Proof.
  apply (verify_decode_jwt_missing_kid sample_env "nokid.b.c"
           {[ "keys" := [rsa_descriptor "K1" "AAA"] ]} ∅); reflexivity.
Defined.

(** X4. When no descriptor of the downloaded key set has the token's key
    identifier (an empty key set included), the token is refused with
    invalid_header, status 403 and the description "Unable to find the
    appropriate key.", and [jwt.decode] is not called. *)
Theorem verify_decode_jwt_unknown_kid
    (env : environment) (token kid : string)
    (jwks : gmap string (list (gmap string string)))
    (header : gmap string string) (keys : list (gmap string string)) :
  urlopen_json env (jwks_url env) = inl jwks →
  jwt_get_unverified_header env token = Return header →
  header !! "kid" = Some kid →
  jwks !! "keys" = Some keys →
  Forall (fun key => ∃ k, key !! "kid" = Some k ∧ k ≠ kid) keys →
  outcome (verify_decode_jwt env token)
  = Raise (AuthError "invalid_header" "Unable to find the appropriate key." 403)
  ∧ List.filter is_decode (trace (verify_decode_jwt env token)) = [].
Proof.
  intros H1 H2 H3 H4 H5.
  rewrite (verify_decode_jwt_resolved env token jwks header kid (Return ∅))
    by (try done; unfold getitem; rewrite H4; by apply find_rsa_key_unknown_kid).
  by rewrite dict_truthy_empty.
Qed.

Lemma verify_decode_jwt_unknown_kid_witness :
  outcome (verify_decode_jwt
             (env_serving (inl {[ "keys" := [rsa_descriptor "K7" "AAA"] ]}))
             "good.b.c")
  = Raise (AuthError "invalid_header" "Unable to find the appropriate key." 403)
  ∧ List.filter is_decode
      (trace (verify_decode_jwt
                (env_serving (inl {[ "keys" := [rsa_descriptor "K7" "AAA"] ]}))
                "good.b.c")) = [].
Proof.
  apply (verify_decode_jwt_unknown_kid
           (env_serving (inl {[ "keys" := [rsa_descriptor "K7" "AAA"] ]}))
           "good.b.c" "K1" {[ "keys" := [rsa_descriptor "K7" "AAA"] ]}
           {[ "kid" := "K1" ]} [rsa_descriptor "K7" "AAA"]);
    try reflexivity.
  repeat constructor. exists "K7". split; [reflexivity | discriminate].
Defined.

Lemma find_rsa_key_origin (keys : list (gmap string string)) (kid : string)
    (acc rsa_key : gmap string string) :
  find_rsa_key keys kid acc = Return rsa_key →
  rsa_key = acc
  ∨ ∃ d, d ∈ keys ∧ d !! "kid" = Some kid ∧ same_fields rsa_key d.
Proof.
  revert acc. induction keys as [|key rest IH]; intros acc H; simpl in H.
  - left. by injection H.
  - unfold getitem in H. run_simpl.
    destruct (key !! "kid") as [k|] eqn:Hk; [|discriminate].
    destruct (String.eqb k kid) eqn:Heq.
    + apply String.eqb_eq in Heq. subst k.
      destruct (key !! "kty") as [kty|] eqn:Hkty; [|discriminate].
      destruct (key !! "use") as [use|] eqn:Huse; [|discriminate].
      destruct (key !! "n") as [n|] eqn:Hn; [|discriminate].
      destruct (key !! "e") as [e|] eqn:He; [|discriminate].
      right. apply IH in H as [->|(d & Hin & Hd & Hs)].
      * exists key. split; [apply list_elem_of_here|]. split; [exact Hk|].
        by apply same_fields_copy.
      * exists d. split; [by apply list_elem_of_further | by split].
    + apply IH in H as [->|(d & Hin & Hd & Hs)]; [by left | right].
      exists d. split; [by apply list_elem_of_further | by split].
Qed.

(** X5. Verification cannot be bypassed: when [verify_decode_jwt] returns
    a payload, the key set was downloaded, the token's header declared a
    key identifier, the loop over the "keys" of the downloaded document
    resolved a non-empty key for that identifier, carrying the kty, kid,
    use, n and e of a descriptor of that set with that identifier, and
    the payload is the one that [jwt.decode] returned for this very
    token, called with that resolved key, the configured algorithms and
    audience, and the issuer "https://<domain>/"; the run consists of the
    download, the reading of the token's header and that one call. *)
Theorem verify_decode_jwt_returns_decoded
    (env : environment) (token : string) (payload : gmap string json) :
  outcome (verify_decode_jwt env token) = Return payload →
  ∃ jwks header kid keys d rsa_key,
    urlopen_json env
      ("https://" ++ AUTH0_DOMAIN env ++ "/.well-known/jwks.json") = inl jwks
    ∧ jwt_get_unverified_header env token = Return header
    ∧ header !! "kid" = Some kid
    ∧ jwks !! "keys" = Some keys
    ∧ find_rsa_key keys kid ∅ = Return rsa_key
    ∧ dict_truthy rsa_key = true
    ∧ d ∈ keys
    ∧ d !! "kid" = Some kid
    ∧ same_fields rsa_key d
    ∧ jwt_decode env token rsa_key (ALGORITHMS env) (API_AUDIENCE env)
        ("https://" ++ AUTH0_DOMAIN env ++ "/") = Return payload
    ∧ trace (verify_decode_jwt env token)
      = [EvUrlopen ("https://" ++ AUTH0_DOMAIN env ++ "/.well-known/jwks.json");
         EvGetUnverifiedHeader token;
         EvDecode token rsa_key (ALGORITHMS env) (API_AUDIENCE env)
           ("https://" ++ AUTH0_DOMAIN env ++ "/")].
Proof.
  fold (jwks_url env). fold (issuer env).
  destruct (urlopen_json env (jwks_url env)) as [jwks|name] eqn:H1.
  2: { by rewrite (verify_decode_jwt_fetch_failed env token name H1). }
  destruct (jwt_get_unverified_header env token) as [header|e] eqn:H2.
  2: { by rewrite (verify_decode_jwt_header_failed env token jwks e H1 H2). }
  destruct (header !! "kid") as [kid|] eqn:H3.
  2: { by rewrite (verify_decode_jwt_no_kid env token jwks header H1 H2 H3). }
  rewrite (verify_decode_jwt_resolved env token jwks header kid _ H1 H2 H3 eq_refl).
  unfold getitem. run_simpl.
  destruct (jwks !! "keys") as [keys|] eqn:H4; [|discriminate].
  destruct (find_rsa_key keys kid ∅) as [rsa_key|e] eqn:H5; [|discriminate].
  destruct (dict_truthy rsa_key) eqn:H6; simpl; [|discriminate].
  intros Hd.
  destruct (find_rsa_key_origin keys kid ∅ rsa_key H5) as [->|(d & Hin & Hk & Hs)].
  { by rewrite dict_truthy_empty in H6. }
  exists jwks, header, kid, keys, d, rsa_key.
  repeat (split; [done|]). split; [|reflexivity].
  fold (decode env token rsa_key).
  by destruct (decode env token rsa_key) as [p|[]].
Qed.

Lemma verify_decode_jwt_returns_decoded_witness :
  ∃ jwks header kid keys d rsa_key,
    urlopen_json sample_env "https://tenant.example.com/.well-known/jwks.json"
    = inl jwks
    ∧ jwt_get_unverified_header sample_env "good.b.c" = Return header
    ∧ header !! "kid" = Some kid
    ∧ jwks !! "keys" = Some keys
    ∧ find_rsa_key keys kid ∅ = Return rsa_key
    ∧ dict_truthy rsa_key = true
    ∧ d ∈ keys
    ∧ d !! "kid" = Some kid
    ∧ same_fields rsa_key d
    ∧ jwt_decode sample_env "good.b.c" rsa_key ["RS256"] "drinks"
        "https://tenant.example.com/" = Return sample_payload
    ∧ trace (verify_decode_jwt sample_env "good.b.c")
      = [EvUrlopen "https://tenant.example.com/.well-known/jwks.json";
         EvGetUnverifiedHeader "good.b.c";
         EvDecode "good.b.c" rsa_key ["RS256"] "drinks"
           "https://tenant.example.com/"].
Proof.
  apply (verify_decode_jwt_returns_decoded sample_env "good.b.c" sample_payload).
  vm_compute. reflexivity.
Defined.

Lemma verify_decode_jwt_other_failure_witness :
  outcome (verify_decode_jwt sample_env "forged.b.c")
  = Raise (AuthError "invalid_header" "Unable to parse authentication token." 403).
Proof.
  apply (verify_decode_jwt_other_failure sample_env "forged.b.c" "K1"
           {[ "keys" := [rsa_descriptor "K1" "AAA"] ]} {[ "kid" := "K1" ]}
           (rsa_descriptor "K1" "AAA") [rsa_descriptor "K1" "AAA"] JWTError);
    try discriminate; vm_compute; reflexivity.
Defined.

(** X7. Every verification begins by downloading the key set from
    "https://<domain>/.well-known/jwks.json", before the token is looked
    at, and downloads it once: nothing is kept from one verification to
    the next. *)
Theorem verify_decode_jwt_downloads_first (env : environment) (token : string) :
  ∃ rest,
    trace (verify_decode_jwt env token)
    = EvUrlopen ("https://" ++ AUTH0_DOMAIN env ++ "/.well-known/jwks.json") :: rest
    ∧ List.filter is_urlopen rest = [].
Proof.
  destruct (verify_decode_jwt_cases env token)
    as [(name & ->)|[(e & -> & _)|(rsa_key & _ & ->)]]; simpl;
    eexists; split; reflexivity.
Qed.

(** X8. When the downloaded document has the shape of a key set (a JSON
    object whose members are lists of objects with string fields, which
    is what the type of [urlopen_json] holds), the exceptions that leave
    [verify_decode_jwt] are: the library exception of a failed download,
    [JWTError] for a token whose header cannot be read, [KeyError] for a
    document or a descriptor without a field the loop reads, and the five
    Authorization Errors of the function with their fixed codes,
    descriptions and statuses. Documents of another shape are outside
    this statement. *)
Theorem verify_decode_jwt_failures (env : environment) (token : string) (e : exn) :
  outcome (verify_decode_jwt env token) = Raise e → verifier_failure e.
Proof.
  destruct (verify_decode_jwt_cases env token)
    as [(name & ->)|[(e' & -> & He)|(rsa_key & _ & ->)]]; simpl.
  - intros [= <-]. constructor.
  - intros [= <-]. destruct He as [->|[->|[->|(k & ->)]]]; constructor.
  - destruct (decode env token rsa_key) as [p|[]]; simpl; intros [= <-];
      constructor.
Qed.

Lemma verify_decode_jwt_failures_witness :
  outcome (verify_decode_jwt (env_serving (inr "URLError")) "good.b.c")
  = Raise (OtherException "URLError")
  ∧ verifier_failure (OtherException "URLError").
Proof.
  split; [reflexivity|].
  apply (verify_decode_jwt_failures (env_serving (inr "URLError")) "good.b.c").
  reflexivity.
Defined.

(** X9. A downloaded document without a "keys" member stops the
    verification of a token that declares a key identifier with a
    [KeyError] for "keys", which is no Authorization Error. *)
Theorem verify_decode_jwt_document_without_keys
    (env : environment) (token kid : string)
    (jwks : gmap string (list (gmap string string)))
    (header : gmap string string) :
  urlopen_json env (jwks_url env) = inl jwks →
  jwt_get_unverified_header env token = Return header →
  header !! "kid" = Some kid →
  jwks !! "keys" = None →
  verify_decode_jwt env token
  = Run [EvUrlopen (jwks_url env); EvGetUnverifiedHeader token]
        (Raise (KeyError "keys")).
Proof.
  intros H1 H2 H3 H4.
  rewrite (verify_decode_jwt_resolved env token jwks header kid
             (Raise (KeyError "keys")));
    try done.
  unfold getitem. by rewrite H4.
Qed.

Lemma verify_decode_jwt_document_without_keys_witness :
  verify_decode_jwt (env_serving (inl {[ "error" := [] ]})) "good.b.c"
  = Run [EvUrlopen "https://tenant.example.com/.well-known/jwks.json";
         EvGetUnverifiedHeader "good.b.c"]
        (Raise (KeyError "keys")).
Proof.
  apply (verify_decode_jwt_document_without_keys
           (env_serving (inl {[ "error" := [] ]})) "good.b.c" "K1"
           {[ "error" := [] ]} {[ "kid" := "K1" ]});
    reflexivity.
Defined.

(** X10. A key set in which some descriptor has no kid stops the
    verification with a [KeyError], also when another descriptor of the
    set matches the token: [jwt.decode] is not called. *)
Theorem verify_decode_jwt_descriptor_without_kid
    (env : environment) (token kid : string)
    (jwks : gmap string (list (gmap string string)))
    (header : gmap string string) (keys : list (gmap string string)) :
  urlopen_json env (jwks_url env) = inl jwks →
  jwt_get_unverified_header env token = Return header →
  header !! "kid" = Some kid →
  jwks !! "keys" = Some keys →
  Exists (fun key => key !! "kid" = None) keys →
  ∃ k, verify_decode_jwt env token
       = Run [EvUrlopen (jwks_url env); EvGetUnverifiedHeader token]
             (Raise (KeyError k)).
Proof.
  intros H1 H2 H3 H4 H5.
  destruct (find_rsa_key_without_kid keys kid ∅ H5) as (k & Hk).
  exists k.
  rewrite (verify_decode_jwt_resolved env token jwks header kid
             (Raise (KeyError k)));
    try done.
  unfold getitem. by rewrite H4.
Qed.

Lemma verify_decode_jwt_descriptor_without_kid_witness :
  ∃ k, verify_decode_jwt
         (env_serving (inl {[ "keys" := [rsa_descriptor "K1" "AAA";
                                         {[ "kty" := "oct" ]}] ]}))
         "good.b.c"
       = Run [EvUrlopen "https://tenant.example.com/.well-known/jwks.json";
              EvGetUnverifiedHeader "good.b.c"]
             (Raise (KeyError k)).
Proof.
  apply (verify_decode_jwt_descriptor_without_kid
           (env_serving (inl {[ "keys" := [rsa_descriptor "K1" "AAA";
                                           {[ "kty" := "oct" ]}] ]}))
           "good.b.c" "K1"
           {[ "keys" := [rsa_descriptor "K1" "AAA"; {[ "kty" := "oct" ]}] ]}
           {[ "kid" := "K1" ]}
           [rsa_descriptor "K1" "AAA"; {[ "kty" := "oct" ]}]);
    try reflexivity.
  apply Exists_cons_tl, Exists_cons_hd. reflexivity.
Defined.

(** *** Permission Guard *)

Lemma prefix_app (x s : string) :
  String.prefix x s = true ↔ ∃ b, s = x ++ b.
Proof.
  revert s. induction x as [|c x IH]; intros s; simpl.
  - split; [intros _; by exists s | by destruct s].
  - destruct s as [|c' s]; simpl; [split; [discriminate | intros (b & [=])]|].
    destruct (Ascii.ascii_dec c c') as [<-|Hne].
    + split.
      * intros H. apply IH in H as (b & ->). by exists b.
      * intros (b & Hb). apply IH. exists b. by injection Hb.
    + split; [discriminate|]. intros (b & Hb). injection Hb as Hc _.
      by destruct Hne.
Qed.

Lemma substring_of_app (x s : string) :
  substring_of x s = true ↔ ∃ a b, s = a ++ x ++ b.
Proof.
  induction s as [|c s IH].
  - change (substring_of x "") with (String.prefix x "" || false).
    rewrite orb_false_r. split.
    + intros H. apply prefix_app in H as (b & ->). by exists "", b.
    + intros (a & b & H). apply prefix_app.
      destruct a as [|? ?]; [by exists b | discriminate].
  - change (substring_of x (String c s))
      with (String.prefix x (String c s) || substring_of x s).
    split.
    + intros H. apply orb_true_iff in H as [H|H].
      * apply prefix_app in H as (b & ->). by exists "", b.
      * apply IH in H as (a & b & ->). by exists (String c a), b.
    + intros (a & b & H). apply orb_true_iff.
      destruct a as [|c' a]; simpl in H.
      * left. apply prefix_app. by exists b.
      * right. apply IH. injection H as _ ->. by exists a, b.
Qed.

(** X11. The Permission Guard never answers False. For every permission
    and every payload it has one of three outcomes, each with its exact
    condition: it returns True exactly when the payload has a permissions
    entry in which Python's [in] finds the permission; it raises
    forbidden (403) exactly when the payload has no permissions entry or
    [in] does not find the permission in it; it raises [TypeError]
    exactly when the permissions entry is null, a boolean or a number. *)
Theorem check_permissions_never_false (permission : string)
    (payload : gmap string json) :
  (check_permissions permission payload = Return true
   ∨ check_permissions permission payload
     = Raise (AuthError "forbidden" "Forbidden" 403)
   ∨ check_permissions permission payload = Raise TypeError)
  ∧ (∀ b, check_permissions permission payload = Return b → b = true)
  ∧ (check_permissions permission payload = Return true
     ↔ ∃ v, payload !! "permissions" = Some v
            ∧ py_in permission v = Return true)
  ∧ (check_permissions permission payload
     = Raise (AuthError "forbidden" "Forbidden" 403)
     ↔ payload !! "permissions" = None
       ∨ ∃ v, payload !! "permissions" = Some v
              ∧ py_in permission v = Return false)
  ∧ (check_permissions permission payload = Raise TypeError
     ↔ ∃ v, payload !! "permissions" = Some v
            ∧ (v = JNull ∨ (∃ b, v = JBool b) ∨ ∃ n, v = JNum n)).
Proof.
  unfold check_permissions, contains_key, getitem.
  destruct (payload !! "permissions") as [v|] eqn:Hv; simpl.
  2: { split; [by right; left|]. split; [discriminate|].
       split; [split; [discriminate | by intros (v & [=] & _)]|].
       split; [split; [by left | reflexivity]|].
       split; [discriminate | by intros (v & [=] & _)]. }
  assert (∀ v', Some v = Some v' → v' = v) as Hinj by (by intros v' [= <-]).
  destruct (py_in permission v) as [[]|e] eqn:Hin; simpl.
  - split; [by left|]. split; [by intros b [= <-]|].
    split; [split; [intros _; by exists v | reflexivity]|].
    split.
    + split; [discriminate|]. intros [[=]|(v' & Heq & Hf)].
      apply Hinj in Heq as ->. congruence.
    + split; [discriminate|]. intros (v' & Heq & Hn).
      apply Hinj in Heq as ->.
      destruct Hn as [->|[(b & ->)| (n & ->)]]; discriminate.
  - split; [by right; left|]. split; [discriminate|].
    split.
    + split; [discriminate|]. intros (v' & Heq & Ht).
      apply Hinj in Heq as ->. congruence.
    + split; [split; [intros _; right; by exists v | reflexivity]|].
      split; [discriminate|]. intros (v' & Heq & Hn).
      apply Hinj in Heq as ->.
      destruct Hn as [->|[(b & ->)| (n & ->)]]; discriminate.
  - assert (e = TypeError ∧ (v = JNull ∨ (∃ b, v = JBool b) ∨ ∃ n, v = JNum n))
      as [-> Hn].
    { destruct v; simpl in Hin; try discriminate; injection Hin as <-;
        (split; [reflexivity|]); eauto. }
    split; [by right; right|]. split; [discriminate|].
    split.
    + split; [discriminate|]. intros (v' & Heq & Ht).
      apply Hinj in Heq as ->. congruence.
    + split.
      * split; [discriminate|]. intros [[=]|(v' & Heq & Hf)].
        apply Hinj in Heq as ->. congruence.
      * split; [intros _; by exists v | reflexivity].
Qed.

(** X12. When the permissions entry of the payload is a string and not a
    list, the guard grants every permission that occurs somewhere inside
    that string, and refuses the others with forbidden: a token whose
    permissions read "get:drinks-detail" is granted "get:drinks". *)
Theorem check_permissions_string_entry (permission s : string)
    (payload : gmap string json) :
  payload !! "permissions" = Some (JStr s) →
  (check_permissions permission payload = Return true
   ↔ ∃ a b, s = a ++ permission ++ b)
  ∧ (check_permissions permission payload = Raise (AuthError "forbidden" "Forbidden" 403)
     ↔ ¬ ∃ a b, s = a ++ permission ++ b).
Proof.
  intros Hs. unfold check_permissions, contains_key, getitem. rewrite Hs. simpl.
  rewrite <- substring_of_app.
  destruct (substring_of permission s); simpl; split; split;
    try done; try discriminate; try (intros H; by destruct H).
Qed.

Lemma check_permissions_string_entry_witness :
  check_permissions "get:drinks" {[ "permissions" := JStr "get:drinks-detail" ]}
  = Return true.
Proof.
  destruct (check_permissions_string_entry "get:drinks" "get:drinks-detail"
              {[ "permissions" := JStr "get:drinks-detail" ]})
    as [Hgranted _]; [reflexivity|].
  apply Hgranted. by exists "", "-detail".
Defined.

(** *** Authorization Middleware *)

Lemma elem_of_calls (t : list event) (a : list json) (k : list (string * json)) :
  EvCall a k ∈ t → calls t ≠ [].
Proof.
  intros Hin Hnil. apply list_elem_of_In in Hin.
  assert (In (EvCall a k) (calls t)) as H by (by apply filter_In).
  rewrite Hnil in H. destruct H.
Qed.

Lemma check_permissions_returns (permission : string) (payload : gmap string json)
    (b : bool) :
  check_permissions permission payload = Return b → b = true.
Proof.
  unfold check_permissions, contains_key, getitem.
  destruct (payload !! "permissions") as [v|]; simpl; [|discriminate].
  destruct v; simpl; try discriminate;
    match goal with |- context [negb ?b] => destruct b; simpl end;
    try discriminate; by intros [= <-].
Qed.

(** The exceptions that can leave the chain. *)
Lemma auth_chain_raises (env : environment) (permission : string)
    (headers : gmap string string) (e : exn) :
  outcome (auth_chain env permission headers) = Raise e →
  e = unauthorized ∨ verifier_failure e ∨ e = forbidden ∨ e = TypeError.
Proof.
  rewrite auth_chain_unfold.
  destruct (get_token_auth_header headers) as [token|e'] eqn:Ht; simpl.
  2: { intros [= <-]. left. by eapply get_token_auth_header_raises. }
  destruct (verify_decode_jwt_cases env token)
    as [(name & Hv)|[(e' & Hv & He)|(rsa_key & _ & Hv)]]; rewrite Hv; simpl.
  - intros [= <-]. right; left. constructor.
  - intros [= <-]. right; left.
    destruct He as [->|[->|[->|(k & ->)]]]; constructor.
  - destruct (decode env token rsa_key) as [p|e'] eqn:Hd; simpl.
    + intros He. apply check_permissions_raises in He as [->| ->]; auto.
    + intros He. right; left. destruct e'; injection He as <-; constructor.
Qed.

Section middleware_more.
Context {R : Type}.
Variable env : environment.
Variable permission : string.
Variable f : list json -> list (string * json) -> result R.
Variable headers : gmap string string.
Variable args : list json.
Variable kwargs : list (string * json).

(** X13. The wrapped operation runs only for an authorized request: if
    a run of the wrapper contains a call of the operation, then a token
    was extracted from the headers, its verification returned a payload,
    and the Permission Guard returned True for the wrapper's permission
    on that payload; the call is the only one of the run and carries the
    arguments the wrapper received. *)
Theorem requires_auth_call_is_authorized
    (a : list json) (k : list (string * json)) :
  EvCall a k ∈ trace (requires_auth env permission f headers args kwargs) →
  a = args ∧ k = kwargs
  ∧ calls (trace (requires_auth env permission f headers args kwargs))
    = [EvCall args kwargs]
  ∧ ∃ token payload,
      get_token_auth_header headers = Return token
      ∧ outcome (verify_decode_jwt env token) = Return payload
      ∧ check_permissions permission payload = Return true.
Proof.
  pose proof (auth_chain_no_call env permission headers) as [Hno _].
  rewrite requires_auth_unfold.
  destruct (outcome (auth_chain env permission headers)) as [b|e] eqn:Hc; simpl.
  2: { intros Hin. by apply elem_of_calls in Hin. }
  intros Hin. apply elem_of_app in Hin as [Hin|Hin].
  { by apply elem_of_calls in Hin. }
  apply list_elem_of_singleton in Hin. injection Hin as -> ->.
  split; [reflexivity|]. split; [reflexivity|]. split.
  - unfold calls in *. rewrite List.filter_app, Hno. reflexivity.
  - rewrite auth_chain_unfold in Hc.
    destruct (get_token_auth_header headers) as [token|] eqn:Ht; [|discriminate].
    destruct (outcome (verify_decode_jwt env token)) as [payload|] eqn:Hv;
      [|discriminate].
    simpl in Hc. exists token, payload.
    pose proof (check_permissions_returns _ _ _ Hc) as ->.
    split; [reflexivity|]. split; [exact Hv | exact Hc].
Qed.

(** X14. A request from which no token can be extracted is answered
    with status 401 and the message "Unauthorized" without any download
    of the key set, any call of [jose] or any call of the wrapped
    operation: the run consists of reading the headers. *)
Theorem requires_auth_no_token (e : exn) :
  get_token_auth_header headers = Raise e →
  trace (requires_auth env permission f headers args kwargs) = [EvReadHeaders]
  ∧ dispatch (outcome (requires_auth env permission f headers args kwargs))
    = Failed {| success := false; error := 401; message := "Unauthorized";
                status := 401 |}.
Proof.
  intros Ht. pose proof (get_token_auth_header_raises _ _ Ht) as ->.
  by rewrite requires_auth_unfold, auth_chain_unfold, Ht.
Qed.

(** X15. An exception of the chain that is no Authorization Error (a
    failed download, a token whose header cannot be read, a key set
    document without the expected fields, a permissions entry that is
    not iterable) passes the wrapper unchanged, the wrapped operation is
    not called, and the request is answered with status 500 and the
    message "Internal Server Error". *)
Theorem requires_auth_unexpected_exception (e : exn) :
  outcome (auth_chain env permission headers) = Raise e →
  is_auth_error e = false →
  outcome (requires_auth env permission f headers args kwargs) = Raise e
  ∧ calls (trace (requires_auth env permission f headers args kwargs)) = []
  ∧ dispatch (outcome (requires_auth env permission f headers args kwargs))
    = Failed {| success := false; error := 500;
                message := "Internal Server Error"; status := 500 |}.
Proof.
  intros He Hna.
  pose proof (auth_chain_no_call env permission headers) as [Hno _].
  rewrite requires_auth_unfold, He. simpl.
  apply auth_chain_raises in He as [->|[Hv|[->| ->]]]; try discriminate.
  - destruct Hv; try discriminate; by repeat split.
  - by repeat split.
Qed.
End middleware_more.

Lemma requires_auth_call_is_authorized_witness :
  ∃ token payload,
    get_token_auth_header (bearer "good.b.c") = Return token
    ∧ outcome (verify_decode_jwt sample_env token) = Return payload
    ∧ check_permissions "patch:drinks" payload = Return true.
Proof.
  destruct (requires_auth_call_is_authorized sample_env "patch:drinks" sample_view
              (bearer "good.b.c") [] [] [] [])
    as (_ & _ & _ & H); [|exact H].
  vm_compute. apply list_elem_of_In. do 5 right. left. reflexivity.
Defined.

Lemma requires_auth_no_token_witness :
  trace (requires_auth sample_env "patch:drinks" sample_view
           {[ "Authorization" := "Basic xyz" ]} [] []) = [EvReadHeaders]
  ∧ dispatch (outcome (requires_auth sample_env "patch:drinks" sample_view
                         {[ "Authorization" := "Basic xyz" ]} [] []))
    = Failed {| success := false; error := 401; message := "Unauthorized";
                status := 401 |}.
Proof.
  apply (requires_auth_no_token sample_env "patch:drinks" sample_view
           {[ "Authorization" := "Basic xyz" ]} [] [] unauthorized).
  reflexivity.
Defined.

Lemma requires_auth_unexpected_exception_witness :
  outcome (requires_auth (env_serving (inr "URLError")) "patch:drinks" sample_view
             (bearer "good.b.c") [] [])
  = Raise (OtherException "URLError")
  ∧ calls (trace (requires_auth (env_serving (inr "URLError")) "patch:drinks"
                    sample_view (bearer "good.b.c") [] [])) = []
  ∧ dispatch (outcome (requires_auth (env_serving (inr "URLError")) "patch:drinks"
                         sample_view (bearer "good.b.c") [] []))
    = Failed {| success := false; error := 500;
                message := "Internal Server Error"; status := 500 |}.
Proof.
  apply (requires_auth_unexpected_exception (env_serving (inr "URLError"))
           "patch:drinks" sample_view (bearer "good.b.c") [] []
           (OtherException "URLError"));
    reflexivity.
Defined.

(** *** Request boundary *)

(** X16. Every error response that the boundary produces has success
    false, repeats its HTTP status in the error field, and carries one of
    the eight registered statuses with the message registered for it:
    the description of an Authorization Error never reaches the client
    this way. *)
Theorem dispatch_failed_response {R : Type} (r : result R) (resp : error_response) :
  dispatch r = Failed resp →
  success resp = false
  ∧ error resp = status resp
  ∧ (status resp, message resp) ∈ registered.
Proof.
  assert (∀ p, In p registered → p ∈ registered) as Hin
    by (intros p; by rewrite list_elem_of_In).
  destruct r as [v|e]; simpl; [discriminate|].
  destruct e; simpl; try discriminate;
    try (intros [= <-]; simpl; split; [done|]; split; [done|];
         apply Hin; simpl; tauto).
  unfold errorhandler.
  repeat match goal with
         | |- context [if ?c =? ?n then _ else _] =>
             destruct (c =? n)
         end;
    try discriminate;
    intros [= <-]; simpl; (split; [done|]); (split; [done|]);
    apply Hin; simpl; tauto.
Qed.

Lemma dispatch_failed_response_witness :
  success (handle_404 (HTTPException 404 None)) = false
  ∧ error (handle_404 (HTTPException 404 None))
    = status (handle_404 (HTTPException 404 None))
  ∧ (status (handle_404 (HTTPException 404 None)),
     message (handle_404 (HTTPException 404 None))) ∈ registered.
Proof.
  apply (dispatch_failed_response
           (Raise (HTTPException 404 None) : result (list Drink * Drink))).
  reflexivity.
Defined.

(** *** Drinks table *)

Lemma check_ingredient_ok (v : json) :
  check_ingredient v = Return tt ↔ ingredient_ok v = true.
Proof.
  unfold check_ingredient, ingredient_ok.
  destruct v; simpl; try (split; discriminate).
  destruct (truthy _), (truthy _), (truthy _); simpl; split;
    try done; discriminate.
Qed.

Lemma check_ingredients_ok (items : list json) :
  check_ingredients items = Return tt ↔ forallb ingredient_ok items = true.
Proof.
  induction items as [|v rest IH]; simpl; [done|].
  rewrite andb_true_iff, <- IH, <- check_ingredient_ok.
  destruct (check_ingredient v) as [[]|]; simpl; split; try done.
  - by intros [_ ?].
  - by intros [? _].
Qed.

Lemma first_or_404_found (db : list Drink) (i : Z) (d : Drink) :
  first_or_404 db i = Return d → id d = i ∧ d ∈ db.
Proof.
  unfold first_or_404.
  destruct (find _ db) as [d'|] eqn:Hf; [|discriminate].
  intros [= <-]. apply find_some in Hf as [Hin Hid].
  split; [lia | by apply list_elem_of_In].
Qed.

Lemma first_or_404_unknown (db : list Drink) (i : Z) :
  i ∉ ids db → first_or_404 db i = Raise (HTTPException 404 None).
Proof.
  intros Hn. unfold first_or_404.
  destruct (find _ db) as [d|] eqn:Hf; [|reflexivity].
  apply find_some in Hf as [Hin Hid]. destruct Hn.
  apply list_elem_of_In, in_map_iff. exists d. split; [lia | exact Hin].
Qed.

Lemma one_or_none_by_title_none (db : list Drink) (t : string) :
  one_or_none_by_title db t = Return None ↔ t ∉ titles db.
Proof.
  unfold one_or_none_by_title, titles. rewrite list_elem_of_In, in_map_iff.
  destruct (List.filter _ db) as [|d [|d' rest]] eqn:Hf.
  - split; [intros _|done]. intros (d & Ht & Hin).
    assert (In d (List.filter (fun d => String.eqb (title d) t) db)) as H
      by (apply filter_In; split; [done | by apply String.eqb_eq]).
    rewrite Hf in H. destruct H.
  - split; [discriminate|]. intros Hn. destruct Hn. exists d.
    assert (In d (List.filter (fun d => String.eqb (title d) t) db)) as H
      by (rewrite Hf; by left).
    apply filter_In in H as [Hin Ht]. by apply String.eqb_eq in Ht.
  - split; [discriminate|]. intros Hn. destruct Hn. exists d.
    assert (In d (List.filter (fun d => String.eqb (title d) t) db)) as H
      by (rewrite Hf; by left).
    apply filter_In in H as [Hin Ht]. by apply String.eqb_eq in Ht.
Qed.

Lemma one_or_none_by_title_taken (db : list Drink) (t : string) :
  NoDup (titles db) → t ∈ titles db →
  ∃ d, one_or_none_by_title db t = Return (Some d).
Proof.
  unfold one_or_none_by_title, titles.
  induction db as [|d rest IH]; simpl; intros Hnd Hin; [by inversion Hin|].
  apply NoDup_cons in Hnd as [Hd Hnd].
  destruct (String.eqb (title d) t) eqn:Ht.
  - apply String.eqb_eq in Ht. subst t.
    apply one_or_none_by_title_none in Hd.
    unfold one_or_none_by_title in Hd.
    destruct (List.filter _ rest) as [|? [|? ?]]; try discriminate. by exists d.
  - apply String.eqb_neq in Ht.
    apply elem_of_cons in Hin as [Heq|Hin]; [by destruct Ht|].
    by apply IH.
Qed.

Lemma commit_ids (db : list Drink) (d' : Drink) : ids (commit db d') = ids db.
Proof.
  unfold ids. induction db as [|d rest IH]; simpl; [reflexivity|].
  destruct (id d =? id d') eqn:Hid; simpl; [|by rewrite IH].
  apply Z.eqb_eq in Hid. by rewrite Hid.
Qed.

Lemma first_or_404_commit (db : list Drink) (d d' : Drink) (i : Z) :
  first_or_404 db i = Return d → id d' = i →
  first_or_404 (commit db d') i = Return d'.
Proof.
  unfold first_or_404. intros Hf <-.
  induction db as [|d0 rest IH]; simpl in *; [discriminate|].
  destruct (id d0 =? id d') eqn:Hid; simpl.
  - by rewrite Z.eqb_refl.
  - rewrite Hid. by apply IH.
Qed.

Lemma first_or_404_commit_other (db : list Drink) (d' : Drink) (j : Z) :
  j ≠ id d' → first_or_404 (commit db d') j = first_or_404 db j.
Proof.
  unfold first_or_404. intros Hne.
  induction db as [|d0 rest IH]; simpl; [reflexivity|].
  destruct (id d0 =? id d') eqn:Hid; simpl.
  - apply Z.eqb_eq in Hid.
    assert ((id d' =? j) = false) as -> by (apply Z.eqb_neq; lia).
    assert ((id d0 =? j) = false) as -> by (apply Z.eqb_neq; lia).
    reflexivity.
  - destruct (id d0 =? j); [reflexivity | exact IH].
Qed.

Lemma commit_titles (db : list Drink) (d' : Drink) (t : string) :
  t ∈ titles (commit db d') → t = title d' ∨ t ∈ titles db.
Proof.
  unfold titles. induction db as [|d0 rest IH]; simpl; [by right|].
  destruct (id d0 =? id d'); simpl; rewrite !elem_of_cons.
  - intros [->|H]; auto.
  - intros [->|H]; [auto|]. destruct (IH H); auto.
Qed.

Lemma commit_titles_nodup (db : list Drink) (d d' : Drink) :
  first_or_404 db (id d') = Return d →
  NoDup (titles db) →
  title d' = title d ∨ title d' ∉ titles db →
  NoDup (titles (commit db d')).
Proof.
  unfold first_or_404, titles.
  induction db as [|d0 rest IH]; simpl; intros Hf Hnd Ht; [constructor|].
  apply NoDup_cons in Hnd as [Hd0 Hnd].
  destruct (id d0 =? id d') eqn:Hid; simpl.
  - injection Hf as <-. apply NoDup_cons. split; [|exact Hnd].
    destruct Ht as [->|Ht]; [exact Hd0|].
    intros Hin. apply Ht. by right.
  - apply NoDup_cons. split.
    + intros Hin. apply commit_titles in Hin as [Heq|Hin]; [|by apply Hd0].
      destruct Ht as [Ht|Ht].
      * destruct (find _ rest) as [dx|] eqn:Hfx; [|discriminate].
        injection Hf as ->. apply find_some in Hfx as [Hin _].
        apply Hd0. rewrite Heq, Ht. apply list_elem_of_In, in_map_iff. by exists d.
      * apply Ht. rewrite <- Heq. by left.
    + apply IH; [exact Hf | exact Hnd |].
      destruct Ht as [Ht|Ht]; [by left | right].
      intros Hin. apply Ht. by right.
Qed.

(** What a successful update went through. *)
Lemma update_drink_success (bind_value : json -> result string)
    (db db' : list Drink) (i : Z) (body : json) (drink' : Drink) :
  update_drink bind_value db i body = Return (db', drink') →
  ∃ drink body_title body_recipe,
    first_or_404 db i = Return drink
    ∧ py_get body "title" = Return body_title
    ∧ py_get body "recipe" = Return body_recipe
    ∧ (truthy body_recipe = true → check_recipe body_recipe = Return tt)
    ∧ (title drink' = title drink ∨ title drink' ∉ titles db)
    ∧ id drink' = id drink
    ∧ recipe drink' = json_dumps body_recipe
    ∧ db' = commit db drink'.
Proof.
  unfold update_drink.
  destruct (truthy body); simpl; [|discriminate].
  destruct (py_get body "title") as [body_title|] ; simpl; [|discriminate].
  destruct (py_get body "recipe") as [body_recipe|]; simpl; [|discriminate].
  destruct (is_str body_title || is_list body_recipe); simpl; [|discriminate].
  rewrite json_dumps_truthy.
  destruct (truthy body_recipe) eqn:Hr.
  - destruct (check_recipe body_recipe) as [[]|] eqn:Hck; simpl; [|discriminate].
    destruct (truthy body_title) eqn:Htitle; simpl.
    + destruct (as_column bind_value body_title) as [t|]; simpl; [|discriminate].
      destruct (one_or_none_by_title db t) as [[]|] eqn:Hq; simpl;
        try discriminate.
      apply one_or_none_by_title_none in Hq.
      destruct (first_or_404 db i) as [drink|]; simpl; [|discriminate].
      intros [= <- <-]. exists drink, body_title, body_recipe. simpl.
      repeat split; auto.
    + destruct (first_or_404 db i) as [drink|]; simpl; [|discriminate].
      intros [= <- <-]. exists drink, body_title, body_recipe. simpl.
      repeat split; auto.
  - simpl. destruct (truthy body_title) eqn:Htitle; simpl.
    + destruct (as_column bind_value body_title) as [t|]; simpl; [|discriminate].
      destruct (one_or_none_by_title db t) as [[]|] eqn:Hq; simpl;
        try discriminate.
      apply one_or_none_by_title_none in Hq.
      destruct (first_or_404 db i) as [drink|]; simpl; [|discriminate].
      intros [= <- <-]. exists drink, body_title, body_recipe. simpl.
      repeat split; auto; intros; congruence.
    + destruct (first_or_404 db i) as [drink|]; simpl; [|discriminate].
      intros [= <- <-]. exists drink, body_title, body_recipe. simpl.
      repeat split; auto; intros; congruence.
Qed.

Section update_drink_more.
Variable bind_value : json -> result string.

(** X17. A successful update neither adds nor removes a row: the ids of
    the table, in order, are what they were, and the record returned has
    the id of the route. *)
Theorem update_drink_keeps_ids
    (db db' : list Drink) (i : Z) (body : json) (drink' : Drink) :
  update_drink bind_value db i body = Return (db', drink') →
  ids db' = ids db ∧ length db' = length db ∧ id drink' = i.
Proof.
  intros H.
  apply update_drink_success in H
    as (drink & t & r & Hf & _ & _ & _ & _ & Hid & _ & ->).
  apply first_or_404_found in Hf as [Hi _].
  pose proof (commit_ids db drink') as Hids.
  split; [exact Hids|]. split; [|congruence].
  unfold ids in Hids. apply (f_equal length) in Hids.
  by rewrite !length_map in Hids.
Qed.

(** X18. Reading back after an update: in the new table the id of the
    route leads to the record that the update returned, and every other
    id leads to what it led to before. *)
Theorem update_drink_read_back
    (db db' : list Drink) (i : Z) (body : json) (drink' : Drink) :
  update_drink bind_value db i body = Return (db', drink') →
  first_or_404 db' i = Return drink'
  ∧ ∀ j, j ≠ i → first_or_404 db' j = first_or_404 db j.
Proof.
  intros H.
  apply update_drink_success in H
    as (drink & t & r & Hf & _ & _ & _ & _ & Hid & _ & ->).
  pose proof (first_or_404_found _ _ _ Hf) as [Hi _].
  split.
  - apply (first_or_404_commit db drink); [exact Hf | congruence].
  - intros j Hj. apply first_or_404_commit_other. congruence.
Qed.

(** X19. Updates keep titles unique: if no two rows of the table have
    the same title, no two rows have after a successful update. *)
Theorem update_drink_unique_titles
    (db db' : list Drink) (i : Z) (body : json) (drink' : Drink) :
  NoDup (titles db) →
  update_drink bind_value db i body = Return (db', drink') →
  NoDup (titles db').
Proof.
  intros Hnd H.
  apply update_drink_success in H
    as (drink & t & r & Hf & _ & _ & _ & Ht & Hid & _ & ->).
  pose proof (first_or_404_found _ _ _ Hf) as [Hi _].
  apply (commit_titles_nodup db drink); [|exact Hnd|exact Ht].
  by rewrite Hid, Hi.
Qed.

(** X20. An update that goes through has checked the recipe it stores:
    the recipe of the body is absent or falsy, or it is a list each
    element of which is an object with a truthy name, color and parts. *)
Theorem update_drink_validated_recipe
    (db db' : list Drink) (i : Z) (body : json) (drink' : Drink) :
  update_drink bind_value db i body = Return (db', drink') →
  ∃ body_recipe,
    py_get body "recipe" = Return body_recipe
    ∧ (truthy body_recipe = false
       ∨ ∃ items, body_recipe = JArr items
                  ∧ forallb ingredient_ok items = true).
Proof.
  intros H.
  apply update_drink_success in H
    as (drink & t & r & _ & _ & Hr & Hcheck & _).
  exists r. split; [exact Hr|].
  destruct (truthy r) eqn:Htr; [right | by left].
  specialize (Hcheck eq_refl).
  destruct r; try discriminate. exists items. split; [reflexivity|].
  by apply check_ingredients_ok.
Qed.

(** X21. A title that a row of the table already bears is refused with
    status 400 and the text "drink titles must be unique", for every id
    of the route: for the id of the very drink that bears the title, and
    for an id that no row has, where the answer is not 404. *)
Theorem update_drink_title_taken
    (db : list Drink) (i : Z) (body body_recipe : json) (t : string) :
  NoDup (titles db) →
  t ∈ titles db →
  t ≠ "" →
  py_get body "title" = Return (JStr t) →
  py_get body "recipe" = Return body_recipe →
  (truthy body_recipe = true → check_recipe body_recipe = Return tt) →
  update_drink bind_value db i body
  = Raise (AbortWithResponse 400 "drink titles must be unique").
Proof.
  intros Hnd Hin Hne Ht Hr Hcheck. unfold update_drink.
  assert (truthy body = true) as ->.
  { destruct body; try discriminate. simpl in Ht.
    destruct members; [discriminate | reflexivity]. }
  rewrite Ht, Hr. simpl.
  destruct (truthy body_recipe); simpl.
  - rewrite (Hcheck eq_refl). simpl.
    apply String.eqb_neq in Hne. rewrite Hne. simpl.
    by destruct (one_or_none_by_title_taken db t Hnd Hin) as (d & ->).
  - apply String.eqb_neq in Hne. rewrite Hne. simpl.
    by destruct (one_or_none_by_title_taken db t Hnd Hin) as (d & ->).
Qed.

(** X22. What the validation of an update refuses: a body that is
    falsy (null, an empty object) is answered with 400; so is an object
    whose title is no string while its recipe is no list; a body that is
    truthy but no object has no [get] and ends in [AttributeError]. *)
Theorem update_drink_rejects (db : list Drink) (i : Z) (body : json) :
  (truthy body = false →
   update_drink bind_value db i body = Raise (HTTPException 400 None))
  ∧ (∀ body_title body_recipe,
       py_get body "title" = Return body_title →
       py_get body "recipe" = Return body_recipe →
       is_str body_title = false → is_list body_recipe = false →
       update_drink bind_value db i body = Raise (HTTPException 400 None))
  ∧ (truthy body = true → (∀ members, body ≠ JObj members) →
     update_drink bind_value db i body = Raise AttributeError).
Proof.
  unfold update_drink. split; [|split].
  - by intros ->.
  - intros t r Ht Hr Hs Hl. destruct (truthy body); simpl; [|reflexivity].
    rewrite Ht, Hr. simpl. by rewrite Hs, Hl.
  - intros -> Hn. simpl. destruct body; try reflexivity. by destruct (Hn members).
Qed.
End update_drink_more.

Lemma update_drink_keeps_ids_witness :
  ∃ db' drink',
    update_drink sample_bind sample_db 2
      (JObj [("title", JStr "sencha"); ("recipe", JArr [sample_ingredient])])
    = Return (db', drink')
    ∧ ids db' = [1; 2] ∧ length db' = 2%nat ∧ id drink' = 2.
Proof.
  eexists _, _. split; [reflexivity|].
  apply (update_drink_keeps_ids sample_bind sample_db _ 2
           (JObj [("title", JStr "sencha"); ("recipe", JArr [sample_ingredient])])).
  reflexivity.
Defined.

Lemma update_drink_read_back_witness :
  ∃ db' drink',
    update_drink sample_bind sample_db 2
      (JObj [("title", JStr "sencha"); ("recipe", JArr [sample_ingredient])])
    = Return (db', drink')
    ∧ first_or_404 db' 2 = Return drink'
    ∧ ∀ j, j ≠ 2 → first_or_404 db' j = first_or_404 sample_db j.
Proof.
  eexists _, _. split; [reflexivity|].
  apply (update_drink_read_back sample_bind sample_db _ 2
           (JObj [("title", JStr "sencha"); ("recipe", JArr [sample_ingredient])])).
  reflexivity.
Defined.

Lemma update_drink_unique_titles_witness :
  ∃ db' drink',
    update_drink sample_bind sample_db 2
      (JObj [("title", JStr "sencha"); ("recipe", JArr [sample_ingredient])])
    = Return (db', drink')
    ∧ NoDup (titles db').
Proof.
  eexists _, _. split; [reflexivity|].
  eapply (update_drink_unique_titles sample_bind sample_db _ 2
            (JObj [("title", JStr "sencha"); ("recipe", JArr [sample_ingredient])]));
    [|reflexivity].
  apply NoDup_cons. split; [|apply NoDup_singleton].
  intros H. apply list_elem_of_singleton in H. discriminate H.
Defined.

Lemma update_drink_validated_recipe_witness :
  ∃ body_recipe,
    py_get (JObj [("title", JStr "sencha"); ("recipe", JArr [sample_ingredient])])
      "recipe" = Return body_recipe
    ∧ (truthy body_recipe = false
       ∨ ∃ items, body_recipe = JArr items
                  ∧ forallb ingredient_ok items = true).
Proof.
  eapply (update_drink_validated_recipe sample_bind sample_db _ 2
            (JObj [("title", JStr "sencha"); ("recipe", JArr [sample_ingredient])])).
  reflexivity.
Defined.

Lemma update_drink_title_taken_witness :
  update_drink sample_bind sample_db 1 (JObj [("title", JStr "water")])
  = Raise (AbortWithResponse 400 "drink titles must be unique")
  ∧ update_drink sample_bind sample_db 99 (JObj [("title", JStr "water")])
    = Raise (AbortWithResponse 400 "drink titles must be unique").
Proof.
  assert (NoDup (titles sample_db)) as Hnd.
  { apply NoDup_cons. split; [|apply NoDup_singleton].
    intros H. apply list_elem_of_singleton in H. discriminate H. }
  split.
  - apply (update_drink_title_taken sample_bind sample_db 1
             (JObj [("title", JStr "water")]) JNull "water" Hnd);
      try reflexivity; try discriminate.
    apply list_elem_of_here.
  - apply (update_drink_title_taken sample_bind sample_db 99
             (JObj [("title", JStr "water")]) JNull "water" Hnd);
      try reflexivity; try discriminate.
    apply list_elem_of_here.
Defined.

(** *** POST /drinks *)

Lemma create_drink_success (next_id : list Drink -> Z)
    (db db' : list Drink) (body : json) (drink' : Drink) :
  create_drink next_id db body = Return (db', drink') →
  ∃ t items,
    py_get body "title" = Return (JStr t)
    ∧ py_get body "recipe" = Return (JArr items)
    ∧ forallb ingredient_ok items = true
    ∧ (t ∉ titles db)
    ∧ drink' = {| id := next_id db; title := t;
                  recipe := json_dumps (JArr items) |}
    ∧ db' = app db [drink'].
Proof.
  unfold create_drink.
  destruct (truthy body); simpl; [|discriminate].
  destruct (py_get body "title") as [body_title|] ; simpl; [|discriminate].
  destruct (py_get body "recipe") as [body_recipe|]; simpl; [|discriminate].
  destruct body_title as [| | |t| |]; simpl; try discriminate.
  destruct body_recipe as [| | | |items|]; simpl; try discriminate.
  destruct (one_or_none_by_title db t) as [[]|] eqn:Hq; simpl; try discriminate.
  apply one_or_none_by_title_none in Hq.
  destruct (check_ingredients items) as [[]|] eqn:Hck; simpl; [|discriminate].
  apply check_ingredients_ok in Hck.
  unfold insert. intros [= <- <-]. by exists t, items.
Qed.

Section create_drink_properties.
Variable next_id : list Drink -> Z.

(** X23. A new drink is accepted when the body is an object whose title
    is a string borne by no row (the empty string included) and whose
    recipe is a list of objects with truthy name, color and parts (the
    empty list included): one row is added at the end of the table, with
    the id given by the database, that title, and the JSON text of the
    recipe. *)
Theorem create_drink_accepts
    (db : list Drink) (body : json) (t : string) (items : list json) :
  py_get body "title" = Return (JStr t) →
  py_get body "recipe" = Return (JArr items) →
  forallb ingredient_ok items = true →
  t ∉ titles db →
  create_drink next_id db body
  = Return ((db ++ [ {| id := next_id db; title := t;
                        recipe := json_dumps (JArr items) |} ])%list,
            {| id := next_id db; title := t;
               recipe := json_dumps (JArr items) |}).
Proof.
  intros Ht Hr Hok Hfree. unfold create_drink.
  assert (truthy body = true) as ->.
  { destruct body; try discriminate. simpl in Ht.
    destruct members; [discriminate | reflexivity]. }
  rewrite Ht, Hr. simpl.
  apply one_or_none_by_title_none in Hfree. rewrite Hfree. simpl.
  apply check_ingredients_ok in Hok. by rewrite Hok.
Qed.

(** X24. Whatever is created was validated: after a successful creation
    the table is the old table followed by the returned record, whose
    title is the string title of the body, borne by no row before, and
    whose recipe is the JSON text of the list recipe of the body, every
    element of which is an object with a truthy name, color and parts. *)
Theorem create_drink_appends
    (db db' : list Drink) (body : json) (drink' : Drink) :
  create_drink next_id db body = Return (db', drink') →
  db' = app db [drink']
  ∧ id drink' = next_id db
  ∧ (title drink' ∉ titles db)
  ∧ py_get body "title" = Return (JStr (title drink'))
  ∧ ∃ items, py_get body "recipe" = Return (JArr items)
             ∧ recipe drink' = json_dumps (JArr items)
             ∧ forallb ingredient_ok items = true.
Proof.
  intros H.
  apply create_drink_success in H as (t & items & Ht & Hr & Hok & Hfree & -> & ->).
  simpl. repeat split; try done. by exists items.
Qed.

(** X25. Creations keep titles unique: if no two rows of the table have
    the same title, no two rows have after a successful creation. *)
Theorem create_drink_unique_titles
    (db db' : list Drink) (body : json) (drink' : Drink) :
  NoDup (titles db) →
  create_drink next_id db body = Return (db', drink') →
  NoDup (titles db').
Proof.
  intros Hnd H.
  apply create_drink_success in H as (t & items & _ & _ & _ & Hfree & -> & ->).
  unfold titles in *. rewrite map_app. simpl.
  apply NoDup_app. split; [exact Hnd|]. split; [|apply NoDup_singleton].
  intros x Hx Hx'. apply list_elem_of_singleton in Hx'. by subst x.
Qed.

(** X26. A title that a row already bears is refused with status 400
    and the text "drink titles must be unique" before the ingredients are
    looked at: the answer is the same for a recipe with unacceptable
    ingredients. *)
Theorem create_drink_title_taken
    (db : list Drink) (body : json) (t : string) (items : list json) :
  NoDup (titles db) →
  t ∈ titles db →
  py_get body "title" = Return (JStr t) →
  py_get body "recipe" = Return (JArr items) →
  create_drink next_id db body
  = Raise (AbortWithResponse 400 "drink titles must be unique").
Proof.
  intros Hnd Hin Ht Hr. unfold create_drink.
  assert (truthy body = true) as ->.
  { destruct body; try discriminate. simpl in Ht.
    destruct members; [discriminate | reflexivity]. }
  rewrite Ht, Hr. simpl.
  by destruct (one_or_none_by_title_taken db t Hnd Hin) as (d & ->).
Qed.
End create_drink_properties.

Lemma create_drink_accepts_witness :
  create_drink sample_next_id sample_db
    (JObj [("title", JStr ""); ("recipe", JArr [])])
  = Return ((sample_db ++ [ {| id := 3; title := ""; recipe := "[]" |} ])%list,
            {| id := 3; title := ""; recipe := "[]" |}).
Proof.
  apply (create_drink_accepts sample_next_id sample_db
           (JObj [("title", JStr ""); ("recipe", JArr [])]) "" []);
    try reflexivity.
  intros H. repeat (apply elem_of_cons in H as [H|H]; [discriminate H|]).
  by apply elem_of_nil in H.
Defined.

Lemma create_drink_appends_witness :
  ∃ db' drink',
    create_drink sample_next_id sample_db
      (JObj [("title", JStr "sencha"); ("recipe", JArr [sample_ingredient])])
    = Return (db', drink')
    ∧ db' = app sample_db [drink']
    ∧ id drink' = 3
    ∧ (title drink' ∉ titles sample_db)
    ∧ title drink' = "sencha".
Proof.
  eexists _, _. split; [reflexivity|].
  destruct (create_drink_appends sample_next_id sample_db _
              (JObj [("title", JStr "sencha"); ("recipe", JArr [sample_ingredient])])
              _ eq_refl)
    as (Hdb & Hid & Hfree & _).
  split; [exact Hdb|]. split; [exact Hid|]. split; [exact Hfree | reflexivity].
Defined.

Lemma create_drink_unique_titles_witness :
  ∃ db' drink',
    create_drink sample_next_id sample_db
      (JObj [("title", JStr "sencha"); ("recipe", JArr [sample_ingredient])])
    = Return (db', drink')
    ∧ NoDup (titles db').
Proof.
  eexists _, _. split; [reflexivity|].
  eapply (create_drink_unique_titles sample_next_id sample_db _
            (JObj [("title", JStr "sencha"); ("recipe", JArr [sample_ingredient])]));
    [|reflexivity].
  apply NoDup_cons. split; [|apply NoDup_singleton].
  intros H. apply list_elem_of_singleton in H. discriminate H.
Defined.

Lemma create_drink_title_taken_witness :
  create_drink sample_next_id sample_db
    (JObj [("title", JStr "matcha"); ("recipe", JArr [JNum 7])])
  = Raise (AbortWithResponse 400 "drink titles must be unique").
Proof.
  apply (create_drink_title_taken sample_next_id sample_db
           (JObj [("title", JStr "matcha"); ("recipe", JArr [JNum 7])])
           "matcha" [JNum 7]);
    try reflexivity.
  - apply NoDup_cons. split; [|apply NoDup_singleton].
    intros H. apply list_elem_of_singleton in H. discriminate H.
  - apply list_elem_of_further, list_elem_of_here.
Defined.

(** *** DELETE /drinks/<id> *)

Lemma remove_row_length (db : list Drink) (d : Drink) :
  id d ∈ ids db → length db = S (length (remove_row db d)).
Proof.
  unfold ids. induction db as [|d0 rest IH]; simpl; intros Hin;
    [by apply elem_of_nil in Hin|].
  destruct (id d0 =? id d) eqn:Hid; simpl; [reflexivity|].
  apply elem_of_cons in Hin as [Heq|Hin].
  - apply Z.eqb_neq in Hid. by destruct Hid.
  - by rewrite <- IH.
Qed.

Lemma remove_row_subset (db : list Drink) (d x : Drink) :
  x ∈ remove_row db d → x ∈ db.
Proof.
  induction db as [|d0 rest IH]; simpl; [done|].
  destruct (id d0 =? id d); rewrite ?elem_of_cons; [by right|].
  intros [->|H]; [by left | right; by apply IH].
Qed.

Lemma remove_row_ids (db : list Drink) (d : Drink) :
  NoDup (ids db) → id d ∉ ids (remove_row db d).
Proof.
  unfold ids. induction db as [|d0 rest IH]; simpl; intros Hnd.
  - apply not_elem_of_nil.
  - apply NoDup_cons in Hnd as [Hd0 Hnd].
    destruct (id d0 =? id d) eqn:Hid; simpl.
    + apply Z.eqb_eq in Hid. by rewrite <- Hid.
    + apply Z.eqb_neq in Hid. rewrite not_elem_of_cons. split; [congruence|].
      by apply IH.
Qed.

Lemma first_or_404_remove_other (db : list Drink) (d : Drink) (k : Z) :
  k ≠ id d → first_or_404 (remove_row db d) k = first_or_404 db k.
Proof.
  unfold first_or_404. intros Hne.
  induction db as [|d0 rest IH]; simpl; [reflexivity|].
  destruct (id d0 =? id d) eqn:Hid; simpl.
  - apply Z.eqb_eq in Hid.
    assert ((id d0 =? k) = false) as -> by (apply Z.eqb_neq; lia).
    reflexivity.
  - destruct (id d0 =? k); [reflexivity | exact IH].
Qed.

(** X27. A successful deletion reports the id of the route, takes
    exactly one row out of the table and brings none in; when ids are
    unique in the table, the deleted id is gone, so that asking for it
    again gives 404, and every other id leads to the row it led to. *)
Theorem delete_drink_removes (db db' : list Drink) (i j : Z) :
  delete_drink db i = Return (db', j) →
  j = i
  ∧ length db = S (length db')
  ∧ (∀ d, d ∈ db' → d ∈ db)
  ∧ (∀ k, k ≠ i → first_or_404 db' k = first_or_404 db k)
  ∧ (NoDup (ids db) →
     (i ∉ ids db')
     ∧ delete_drink db' i = Raise (HTTPException 404 None)).
Proof.
  unfold delete_drink.
  destruct (first_or_404 db i) as [d|] eqn:Hf; simpl; [|discriminate].
  intros [= <- <-].
  apply first_or_404_found in Hf as [Hid Hin]. subst i.
  split; [reflexivity|]. split; [|split; [|split]].
  - apply remove_row_length. unfold ids.
    apply list_elem_of_In, in_map, list_elem_of_In, Hin.
  - intros x. apply remove_row_subset.
  - intros k Hk. by apply first_or_404_remove_other.
  - intros Hnd. pose proof (remove_row_ids db d Hnd) as Hgone.
    split; [exact Hgone|].
    by rewrite (first_or_404_unknown _ _ Hgone).
Qed.

Lemma delete_drink_removes_witness :
  ∃ db', delete_drink sample_db 1 = Return (db', 1)
         ∧ length sample_db = S (length db')
         ∧ delete_drink db' 1 = Raise (HTTPException 404 None).
Proof.
  eexists. split; [reflexivity|].
  destruct (delete_drink_removes sample_db _ 1 1 eq_refl)
    as (_ & Hlen & _ & _ & Hgone).
  split; [exact Hlen|]. apply Hgone.
  apply NoDup_cons. split; [|apply NoDup_singleton].
  intros H. apply list_elem_of_singleton in H. discriminate H.
Defined.

(** X28. An id that no row has changes nothing: the deletion is
    answered with 404, and an update never goes through, whatever its
    body. *)
Theorem unknown_id_not_served (db : list Drink) (i : Z) :
  i ∉ ids db →
  delete_drink db i = Raise (HTTPException 404 None)
  ∧ ∀ bind_value body, ∃ e, update_drink bind_value db i body = Raise e.
Proof.
  intros Hn. pose proof (first_or_404_unknown db i Hn) as Hf. split.
  - unfold delete_drink. by rewrite Hf.
  - intros bind_value body.
    destruct (update_drink bind_value db i body) as [[db' drink']|e] eqn:Hu;
      [|by exists e].
    apply update_drink_success in Hu as (d & _ & _ & Hd & _).
    rewrite Hf in Hd. discriminate.
Qed.

Lemma unknown_id_not_served_witness :
  delete_drink sample_db 99 = Raise (HTTPException 404 None)
  ∧ ∀ bind_value body, ∃ e, update_drink bind_value sample_db 99 body = Raise e.
Proof.
  apply (unknown_id_not_served sample_db 99).
  intros H. repeat (apply elem_of_cons in H as [H|H]; [discriminate H|]).
  by apply elem_of_nil in H.
Defined.

(** *** Protected routes *)

Lemma requires_auth_returns {R : Type} (env : environment) (permission : string)
    (f : list json -> list (string * json) -> result R)
    (headers : gmap string string) (args : list json)
    (kwargs : list (string * json)) (r : R) :
  outcome (requires_auth env permission f headers args kwargs) = Return r →
  f args kwargs = Return r
  ∧ ∃ token payload,
      get_token_auth_header headers = Return token
      ∧ outcome (verify_decode_jwt env token) = Return payload
      ∧ check_permissions permission payload = Return true.
Proof.
  rewrite requires_auth_unfold.
  destruct (outcome (auth_chain env permission headers)) as [b|e] eqn:Hc; simpl.
  2: { by destruct e. }
  intros Hf. split; [by destruct (f args kwargs) as [|[]]|].
  rewrite auth_chain_unfold in Hc.
  destruct (get_token_auth_header headers) as [token|] eqn:Ht; [|discriminate].
  destruct (outcome (verify_decode_jwt env token)) as [payload|] eqn:Hv;
    [|discriminate].
  simpl in Hc. exists token, payload.
  pose proof (check_permissions_returns _ _ _ Hc) as ->. done.
Qed.

(** X29. The three routes that change the table change it only for a
    token that holds the permission of the route: when POST /drinks,
    PATCH /drinks/<id> or DELETE /drinks/<id> returns, the result is that
    of the endpoint for the id of the route, and the request carried a
    token whose verified payload the Permission Guard accepted for
    "post:drinks", "patch:drinks" or "delete:drinks" respectively. *)
Theorem routes_need_permission (env : environment)
    (bind_value : json -> result string) (next_id : list Drink -> Z)
    (db : list Drink) (headers : gmap string string) :
  (∀ body r,
     outcome (post_drinks env next_id db headers body) = Return r →
     create_drink next_id db body = Return r
     ∧ ∃ token payload,
         get_token_auth_header headers = Return token
         ∧ outcome (verify_decode_jwt env token) = Return payload
         ∧ check_permissions "post:drinks" payload = Return true)
  ∧ (∀ i body r,
       outcome (patch_drinks env bind_value db headers i body) = Return r →
       update_drink bind_value db i body = Return r
       ∧ ∃ token payload,
           get_token_auth_header headers = Return token
           ∧ outcome (verify_decode_jwt env token) = Return payload
           ∧ check_permissions "patch:drinks" payload = Return true)
  ∧ (∀ i r,
       outcome (delete_drinks env db headers i) = Return r →
       delete_drink db i = Return r
       ∧ ∃ token payload,
           get_token_auth_header headers = Return token
           ∧ outcome (verify_decode_jwt env token) = Return payload
           ∧ check_permissions "delete:drinks" payload = Return true).
Proof.
  split; [|split].
  - intros body r H. by apply requires_auth_returns in H.
  - intros i body r H. by apply requires_auth_returns in H.
  - intros i r H. by apply requires_auth_returns in H.
Qed.

(** On the sample authority, whose token holds "patch:drinks" and not
    "delete:drinks": the update is served, the deletion is answered with
    403 and the table is not touched. *)
Example routes_on_sample :
  dispatch (outcome (patch_drinks sample_env sample_bind sample_db
                       (bearer "good.b.c") 1 (JObj [("title", JStr "soda")])))
  = Served ([ {| id := 1; title := "soda"; recipe := "null" |};
              {| id := 2; title := "matcha"; recipe := "[2]" |} ],
            {| id := 1; title := "soda"; recipe := "null" |})
  ∧ dispatch (outcome (delete_drinks sample_env sample_db (bearer "good.b.c") 1))
    = Failed {| success := false; error := 403; message := "Forbidden";
                status := 403 |}.
Proof. split; vm_compute; reflexivity. Qed.
